(** * KanBan dashboard server: the two JSON endpoints of [server.py]

    A shallow embedding of [DashboardHandler] ([do_GET], [send_json],
    [send_status], [send_log]) together with the parts of the Python
    runtime the handler leans on: [dict] with insertion order,
    [dict.update], [str.strip], [readlines], list slicing and
    [os.path.join].

    Text is a [string]; every [ascii] stands for one character of the
    decoded Python [str].  The routines of the Python library that this
    repository calls but does not define ([json.loads], [repr], the
    clock, the file system) and the recursion limit under which
    [json.dumps] serialises are fields of the environment [Env]. *)

From Stdlib Require Import ZArith List String Ascii Bool Arith Lia.
From Stdlib Require Import DecimalString SpecFloat.
Import ListNotations.
Local Open Scope string_scope.
Local Open Scope list_scope.
Set Warnings "-register-all".

(** ** Python values *)

Module Py.

(** What [json.load] can return and what the handler builds from it.
    A [dict] keeps its entries in insertion order. *)
Inductive pyval : Type :=
| PNone
| PBool (b : bool)
| PInt (z : Z)
| PFloat (f : spec_float)
| PStr (s : string)
| PList (l : list pyval)
| PDict (d : list (pyval * pyval)).

Definition dict := list (pyval * pyval).

Inductive exn : Type :=
| KeyError (k : pyval)
| TypeError
| ValueError
| AttributeError
| OSError
| JSONDecodeError
| RecursionError.

Inductive result (A : Type) : Type :=
| Ok (a : A)
| Raise (x : exn).
Arguments Ok {A} a.
Arguments Raise {A} x.

(** How deep the containers of a value are nested: what the recursion
    guard of the interpreter counts when [json] walks a value. *)
Fixpoint depth (v : pyval) : nat :=
  match v with
  | PList l => S (fold_right (fun x acc => Nat.max (depth x) acc) 0 l)
  | PDict d =>
      S (fold_right (fun kv acc => Nat.max (depth (snd kv)) acc) 0 d)
  | _ => 0
  end.

(** *** Keys: hashing and equality

    Python compares dict keys by value: [1], [1.0] and [True] are one
    key, a [str] only equals a [str], [None] only [None]; lists and
    dicts are unhashable.  A number is brought to a canonical form, so
    that key equality is equality of canonical forms. *)

Inductive pynum : Type :=
| NInt (z : Z)
| NDyadic (neg : bool) (m : positive) (e : Z)
| NInf (neg : bool)
| NNan.

Inductive pykey : Type :=
| KNone
| KStr (s : string)
| KNum (n : pynum).

(** [m * 2^e] with [e < 0]: halve [m] while it is even. *)
Fixpoint norm_dyadic (m : positive) (e : Z) : positive * Z :=
  match m with
  | xO m' => if (e <? 0)%Z then norm_dyadic m' (e + 1)%Z else (m, e)
  | _ => (m, e)
  end.

Definition float_num (f : spec_float) : pynum :=
  match f with
  | S754_zero _ => NInt 0
  | S754_infinity s => NInf s
  | S754_nan => NNan
  | S754_finite s m e =>
      let (m', e') := norm_dyadic m e in
      if (0 <=? e')%Z
      then NInt ((if s then -1 else 1) * (Zpos m' * 2 ^ e'))%Z
      else NDyadic s m' e'
  end.

Definition py_hash (v : pyval) : option pykey :=
  match v with
  | PNone => Some KNone
  | PBool b => Some (KNum (NInt (if b then 1 else 0)))
  | PInt z => Some (KNum (NInt z))
  | PFloat f => Some (KNum (float_num f))
  | PStr s => Some (KStr s)
  | PList _ | PDict _ => None
  end.

Definition pynum_eqb (a b : pynum) : bool :=
  match a, b with
  | NInt x, NInt y => (x =? y)%Z
  | NDyadic s m e, NDyadic s' m' e' =>
      Bool.eqb s s' && (m =? m')%positive && (e =? e')%Z
  | NInf s, NInf s' => Bool.eqb s s'
  | NNan, NNan => true
  | _, _ => false
  end.

Definition pykey_eqb (a b : pykey) : bool :=
  match a, b with
  | KNone, KNone => true
  | KStr s, KStr t => (s =? t)%string
  | KNum x, KNum y => pynum_eqb x y
  | _, _ => false
  end.

Definition hashable (v : pyval) : bool :=
  match py_hash v with Some _ => true | None => false end.

(** [a == b] for two keys of a dict. *)
Definition key_eqb (a b : pyval) : bool :=
  match py_hash a, py_hash b with
  | Some x, Some y => pykey_eqb x y
  | _, _ => false
  end.

(** *** dict operations *)

(** [d.get(k)]: the value stored under a key equal to [k]. *)
Fixpoint dict_get (d : dict) (k : pyval) : option pyval :=
  match d with
  | [] => None
  | (k0, v0) :: d' => if key_eqb k0 k then Some v0 else dict_get d' k
  end.

(** [d[k] = v] for a hashable [k]: an existing entry keeps its place
    and its key object, a new key goes to the end. *)
Fixpoint dict_set (d : dict) (k v : pyval) : dict :=
  match d with
  | [] => [(k, v)]
  | (k0, v0) :: d' =>
      if key_eqb k0 k then (k0, v) :: d' else (k0, v0) :: dict_set d' k v
  end.

(** [o[k]] for a [str] key [k]: only a dict can be indexed by a
    string, and a missing key is a [KeyError]. *)
Definition py_getitem (o : pyval) (k : string) : result pyval :=
  match o with
  | PDict d =>
      match dict_get d (PStr k) with
      | Some v => Ok v
      | None => Raise (KeyError (PStr k))
      end
  | _ => Raise TypeError
  end.

(** The characters of a [str], each a [str] of length one. *)
Fixpoint chars (s : string) : list pyval :=
  match s with
  | EmptyString => []
  | String c r => PStr (String c EmptyString) :: chars r
  end.

(** [iter(o)]: list elements, dict keys, the characters of a str;
    [None] when [o] is not iterable. *)
Definition py_iter (o : pyval) : option (list pyval) :=
  match o with
  | PList l => Some l
  | PDict d => Some (map fst d)
  | PStr s => Some (chars s)
  | _ => None
  end.

(** [PyDict_Merge(d, other, override=1)]: [d.update(other)] for a dict. *)
Definition dict_merge (d other : dict) : dict :=
  fold_left (fun acc kv => dict_set acc (fst kv) (snd kv)) other d.

(** [PyDict_MergeFromSeq2(d, items, override=1)]: [d.update(seq)] for an
    iterable of pairs.  Entries are stored one by one; the dict keeps
    what was stored before an element is rejected. *)
Fixpoint merge_seq2 (d : dict) (items : list pyval) : dict * option exn :=
  match items with
  | [] => (d, None)
  | item :: rest =>
      match py_iter item with
      | None => (d, Some TypeError)
      | Some [k; v] =>
          if hashable k then merge_seq2 (dict_set d k v) rest
          else (d, Some TypeError)
      | Some _ => (d, Some ValueError)
      end
  end.

(** [dict_update_arg]: the dict after [d.update(arg)] and the
    exception the call raised, if any. *)
Definition dict_update (d : dict) (arg : pyval) : dict * option exn :=
  match arg with
  | PDict other => (dict_merge d other, None)
  | PList items => merge_seq2 d items
  | PStr s => merge_seq2 d (chars s)
  | PNone | PBool _ | PInt _ | PFloat _ => (d, Some TypeError)
  end.

(** [o.update(arg)]: the object after the call and the exception the
    call raised, if any; only a dict has the method. *)
Definition py_update (o arg : pyval) : pyval * option exn :=
  match o with
  | PDict d => let (d', x) := dict_update d arg in (PDict d', x)
  | _ => (o, Some AttributeError)
  end.

(** *** str *)

(** [str(v)] as an f-string field formats it.  [repr] is the library's
    rendering of floats and containers. *)
Definition py_str (repr : pyval -> string) (v : pyval) : string :=
  match v with
  | PStr s => s
  | PInt z => NilZero.string_of_int (Z.to_int z)
  | PBool true => "True"
  | PBool false => "False"
  | PNone => "None"
  | PFloat _ | PList _ | PDict _ => repr v
  end.

(** Whitespace for [str.strip()]: TAB..CR, FS..US, space, NEL, NBSP. *)
Definition is_space (c : ascii) : bool :=
  let n := nat_of_ascii c in
  (((9 <=? n) && (n <=? 13)) || ((28 <=? n) && (n <=? 32))
   || (n =? 133) || (n =? 160))%nat.

Fixpoint lstrip (s : string) : string :=
  match s with
  | EmptyString => EmptyString
  | String c r => if is_space c then lstrip r else s
  end.

Fixpoint rstrip (s : string) : string :=
  match s with
  | EmptyString => EmptyString
  | String c r =>
      match rstrip r with
      | EmptyString => if is_space c then EmptyString else String c EmptyString
      | r' => String c r'
      end
  end.

Definition strip (s : string) : string := rstrip (lstrip s).

(** Truth value of a str: [if line:]. *)
Definition str_truthy (s : string) : bool :=
  match s with EmptyString => false | _ => true end.

Definition newline : ascii := "010"%char.

(** [f.readlines()] on a text file whose (newline-translated) content
    is [s]: every line keeps its terminating newline. *)
Fixpoint readlines (s : string) : list string :=
  match s with
  | EmptyString => []
  | String c r =>
      if Ascii.eqb c newline then String c EmptyString :: readlines r
      else match readlines r with
           | [] => [String c EmptyString]
           | l :: ls => String c l :: ls
           end
  end.

(** [l[-n:]] for [n > 0]. *)
Definition last_n {A : Type} (n : nat) (l : list A) : list A :=
  skipn (List.length l - n) l.

(** *** os.path *)

Definition starts_with_slash (s : string) : bool :=
  match s with
  | String c _ => Ascii.eqb c "/"%char
  | EmptyString => false
  end.

Fixpoint ends_with_slash (s : string) : bool :=
  match s with
  | EmptyString => false
  | String c EmptyString => Ascii.eqb c "/"%char
  | String _ r => ends_with_slash r
  end.

(** [os.path.join(a, b)] (posixpath). *)
Definition path_join (a b : string) : string :=
  if starts_with_slash b || negb (str_truthy a) then b
  else if ends_with_slash a then a ++ b
  else a ++ "/" ++ b.

End Py.

(** ** A reference reader for a fragment of JSON

    [Env] leaves [json.loads] open.  The worked examples need one
    concrete reader: this one accepts null, true, false, integers,
    strings without escapes, arrays and objects, and rejects the rest.
    On a repeated member name the last value is kept, as [json.loads]
    does. *)

Module MiniJson.
Import Py.

Inductive token : Type :=
| TLBrace | TRBrace | TLBracket | TRBracket | TColon | TComma
| TString (s : string)
| TNumber (z : Z)
| TTrue | TFalse | TNull.

Definition quote : ascii := "034"%char.

Definition is_ws (c : ascii) : bool :=
  let n := nat_of_ascii c in
  ((n =? 32) || (n =? 9) || (n =? 10) || (n =? 13))%nat.

Definition is_digit (c : ascii) : bool :=
  let n := nat_of_ascii c in ((48 <=? n) && (n <=? 57))%nat.

(** The text up to the closing quote, and what follows it. *)
Fixpoint lex_string (s : string) : option (string * string) :=
  match s with
  | EmptyString => None
  | String c r =>
      if Ascii.eqb c quote then Some (EmptyString, r)
      else if Ascii.eqb c "\"%char || (nat_of_ascii c <? 32)%nat then None
      else match lex_string r with
           | Some (b, rest) => Some (String c b, rest)
           | None => None
           end
  end.

(** The leading digits, folded into [acc], and what follows them. *)
Fixpoint lex_digits (s : string) (acc : Z) : Z * string :=
  match s with
  | String c r =>
      if is_digit c
      then lex_digits r (10 * acc + Z.of_nat (nat_of_ascii c - 48))%Z
      else (acc, s)
  | EmptyString => (acc, s)
  end.

(** An integer literal without sign: no leading zero, no fraction, no
    exponent. *)
Definition lex_nat (s : string) : option (Z * string) :=
  match s with
  | String c r =>
      if is_digit c then
        let (z, rest) := lex_digits s 0 in
        let lead0 := Ascii.eqb c "0"%char &&
                     match r with
                     | String c' _ => is_digit c'
                     | EmptyString => false
                     end in
        let floaty := match rest with
                      | String c' _ =>
                          Ascii.eqb c' "."%char || Ascii.eqb c' "e"%char
                          || Ascii.eqb c' "E"%char
                      | EmptyString => false
                      end in
        if lead0 || floaty then None else Some (z, rest)
      else None
  | EmptyString => None
  end.

Fixpoint drop_prefix (p s : string) : option string :=
  match p, s with
  | EmptyString, _ => Some s
  | String a p', String b s' =>
      if Ascii.eqb a b then drop_prefix p' s' else None
  | _, _ => None
  end.

Definition push (t : token) (r : option (list token)) : option (list token) :=
  match r with Some ts => Some (t :: ts) | None => None end.

Fixpoint lex (fuel : nat) (s : string) : option (list token) :=
  match fuel with
  | O => None
  | S fuel' =>
      match s with
      | EmptyString => Some []
      | String c r =>
          if is_ws c then lex fuel' r
          else if Ascii.eqb c "{"%char then push TLBrace (lex fuel' r)
          else if Ascii.eqb c "}"%char then push TRBrace (lex fuel' r)
          else if Ascii.eqb c "["%char then push TLBracket (lex fuel' r)
          else if Ascii.eqb c "]"%char then push TRBracket (lex fuel' r)
          else if Ascii.eqb c ":"%char then push TColon (lex fuel' r)
          else if Ascii.eqb c ","%char then push TComma (lex fuel' r)
          else if Ascii.eqb c quote then
            match lex_string r with
            | Some (b, rest) => push (TString b) (lex fuel' rest)
            | None => None
            end
          else if Ascii.eqb c "-"%char then
            match lex_nat r with
            | Some (z, rest) => push (TNumber (- z)) (lex fuel' rest)
            | None => None
            end
          else if is_digit c then
            match lex_nat s with
            | Some (z, rest) => push (TNumber z) (lex fuel' rest)
            | None => None
            end
          else
            match drop_prefix "true" s, drop_prefix "false" s,
                  drop_prefix "null" s with
            | Some rest, _, _ => push TTrue (lex fuel' rest)
            | _, Some rest, _ => push TFalse (lex fuel' rest)
            | _, _, Some rest => push TNull (lex fuel' rest)
            | _, _, _ => None
            end
      end
  end.

Fixpoint parse_value (fuel : nat) (ts : list token)
  : option (pyval * list token) :=
  match fuel with
  | O => None
  | S f =>
      match ts with
      | TNull :: r => Some (PNone, r)
      | TTrue :: r => Some (PBool true, r)
      | TFalse :: r => Some (PBool false, r)
      | TNumber z :: r => Some (PInt z, r)
      | TString s :: r => Some (PStr s, r)
      | TLBracket :: TRBracket :: r => Some (PList [], r)
      | TLBracket :: r => parse_elems f r
      | TLBrace :: TRBrace :: r => Some (PDict [], r)
      | TLBrace :: r => parse_members f r []
      | _ => None
      end
  end
with parse_elems (fuel : nat) (ts : list token)
  : option (pyval * list token) :=
  match fuel with
  | O => None
  | S f =>
      match parse_value f ts with
      | Some (v, TComma :: r) =>
          match parse_elems f r with
          | Some (PList vs, r') => Some (PList (v :: vs), r')
          | _ => None
          end
      | Some (v, TRBracket :: r) => Some (PList [v], r)
      | _ => None
      end
  end
with parse_members (fuel : nat) (ts : list token) (acc : dict)
  : option (pyval * list token) :=
  match fuel with
  | O => None
  | S f =>
      match ts with
      | TString k :: TColon :: r =>
          match parse_value f r with
          | Some (v, TComma :: r') =>
              parse_members f r' (dict_set acc (PStr k) v)
          | Some (v, TRBrace :: r') =>
              Some (PDict (dict_set acc (PStr k) v), r')
          | _ => None
          end
      | _ => None
      end
  end.

Definition mini_loads (s : string) : option pyval :=
  match lex (S (String.length s)) s with
  | Some ts =>
      match parse_value (2 * List.length ts + 2) ts with
      | Some (v, []) => Some v
      | _ => None
      end
  | None => None
  end.

(** A double quote, for writing JSON text. *)
Definition q : string := String quote EmptyString.

End MiniJson.

(** ** The environment and the handler monad *)

Module Server.
Import Py.

(** What a request can observe: the file system, the clock, the
    library routines and the recursion guard of the interpreter.
    [fs_read p] is the text [open(p)] yields, [None] when opening or
    reading raises (file missing, unreadable, not decodable);
    [json_loads s] is [None] when [json.loads(s)] raises.
    [recursion_limit] is the nesting [json.dumps] can walk before the
    guard raises [RecursionError]; [json.loads] runs under the same
    guard, so it returns nothing deeper ([loads_bounded]), and the
    bodies the handler writes out of constants are within it
    ([limit_floor]). *)
Record Env : Type := mkEnv {
  fs_exists : string -> bool;
  fs_read : string -> option string;
  json_loads : string -> option pyval;
  py_repr : pyval -> string;
  now_iso : string;
  recursion_limit : nat;
  loads_bounded :
    forall s v, json_loads s = Some v -> depth v <= recursion_limit;
  limit_floor : 2 <= recursion_limit
}.

(** File-system calls, in the order the handler makes them. *)
Inductive fs_call : Type :=
| CallExists (p : string)
| CallOpen (p : string).

Definition call_path (c : fs_call) : string :=
  match c with CallExists p | CallOpen p => p end.

(** A computation reads the environment, logs its file-system calls and
    either returns or raises. *)
Definition M (A : Type) : Type := Env -> list fs_call * result A.

Definition ret {A : Type} (a : A) : M A := fun _ => ([], Ok a).

Definition bind {A B : Type} (m : M A) (f : A -> M B) : M B :=
  fun e =>
    match m e with
    | (t1, Ok a) => let (t2, r) := f a e in (t1 ++ t2, r)
    | (t1, Raise x) => (t1, Raise x)
    end.

Definition raise {A : Type} (x : exn) : M A := fun _ => ([], Raise x).

(** [try: m except Exception: ...]: the outcome of [m] as a value. *)
Definition attempt {A : Type} (m : M A) : M (result A) :=
  fun e => let (t, r) := m e in (t, Ok r).

Definition lift {A : Type} (r : result A) : M A := fun _ => ([], r).

Declare Scope py_scope.
Delimit Scope py_scope with py.
Notation "x <- c ;; k" := (bind c (fun x => k))
  (at level 61, c at next level, right associativity) : py_scope.
Local Open Scope py_scope.

(** [os.path.exists(p)] *)
Definition path_exists (p : string) : M bool :=
  fun e => ([CallExists p], Ok (fs_exists e p)).

(** [with open(p) as f: f.read()] *)
Definition open_read (p : string) : M string :=
  fun e => ([CallOpen p],
            match fs_read e p with
            | Some s => Ok s
            | None => Raise OSError
            end).

(** [json.loads(s)] *)
Definition loads (s : string) : M pyval :=
  fun e => ([], match json_loads e s with
                | Some v => Ok v
                | None => Raise JSONDecodeError
                end).

(** [with open(p) as f: json.load(f)] *)
Definition json_load (p : string) : M pyval :=
  s <- open_read p ;; loads s.

(** [f'{v}'] *)
Definition format (v : pyval) : M string :=
  fun e => ([], Ok (py_str (py_repr e) v)).

(** [datetime.now().isoformat()] *)
Definition now : M string := fun e => ([], Ok (now_iso e)).

(** ** server.py *)

Definition DASHBOARD_DIR : string := "/tmp/kanban-dashboard".
Definition STATUS_DIR : string := path_join DASHBOARD_DIR "status".
Definition LOG_FILE : string := path_join DASHBOARD_DIR "activity.log".

Record response : Type := mkResponse {
  status_code : Z;
  headers : list (string * string);
  body : pyval
}.

(** [json.dumps(data)]: raises when [data] is nested deeper than the
    recursion guard allows.  The text it returns is not modelled; the
    value stands for it. *)
Definition dumps (data : pyval) : M pyval :=
  fun e => ([], if (depth data <=? recursion_limit e)%nat then Ok data
                else Raise RecursionError).

(** [send_json]: the body is the value [json.dumps] has serialised;
    nothing is sent when [json.dumps] raises. *)
Definition send_json (data : pyval) : M response :=
  data <- dumps data ;;
  ret {| status_code := 200;
         headers := [("Content-Type", "application/json");
                     ("Access-Control-Allow-Origin", "*");
                     ("Cache-Control", "no-cache")];
         body := data |}.

Definition error_body : pyval :=
  PDict [(PStr "error", PStr "tasks.json not found")].

(** The body of the loop of [send_status]; the result is the [task]
    object as the iteration leaves it.  An exception of [update] is
    swallowed like one of [open] or [json.load], and the task keeps
    what [update] had stored by then. *)
Definition merge_status (task : pyval) : M pyval :=
  id <- lift (py_getitem task "id") ;;
  name <- format id ;;
  let status_file := path_join STATUS_DIR ("task-" ++ name ++ ".json") in
  ex <- path_exists status_file ;;
  if (ex : bool) then
    r <- attempt (json_load status_file) ;;
    match r with
    | Ok status => ret (fst (py_update task status))
    | Raise _ => ret task
    end
  else ret task.

Fixpoint for_each {A B : Type} (f : A -> M B) (l : list A) : M (list B) :=
  match l with
  | [] => ret []
  | x :: xs => y <- f x ;; ys <- for_each f xs ;; ret (y :: ys)
  end.

(** [for task in tasks: ...]: the [tasks] object after the loop.  The
    elements of a list are updated in place; [json.load] builds a tree
    in which no dict occurs twice, so updating a task in place is
    replacing it at its rank.  Keys of a dict and characters of a str
    are handed to the body as they are. *)
Definition for_tasks (tasks : pyval) : M pyval :=
  match tasks with
  | PList l => l' <- for_each merge_status l ;; ret (PList l')
  | _ =>
      match py_iter tasks with
      | Some l => _ <- for_each merge_status l ;; ret tasks
      | None => raise TypeError
      end
  end.

Definition send_status : M response :=
  r <- attempt (json_load (path_join DASHBOARD_DIR "tasks.json")) ;;
  match r with
  | Raise _ => send_json error_body
  | Ok data =>
      tasks <- lift (py_getitem data "tasks") ;;
      tasks' <- for_tasks tasks ;;
      t <- now ;;
      match data with
      | PDict d =>
          send_json
            (PDict (dict_set (dict_set d (PStr "tasks") tasks')
                             (PStr "server_time") (PStr t)))
      | _ => raise TypeError
      end
  end.

Definition fallback_entry (line : string) : pyval :=
  PDict [(PStr "message", PStr line); (PStr "time", PStr EmptyString)].

(** The loop of [send_log] over the kept lines. *)
Fixpoint log_loop (lines : list string) (entries : list pyval)
  : M (list pyval) :=
  match lines with
  | [] => ret entries
  | line :: rest =>
      let line := strip line in
      if str_truthy line then
        r <- attempt (loads line) ;;
        match r with
        | Ok v => log_loop rest (entries ++ [v])
        | Raise _ => log_loop rest (entries ++ [fallback_entry line])
        end
      else log_loop rest entries
  end.

Definition send_log : M response :=
  ex <- path_exists LOG_FILE ;;
  entries <-
    (if (ex : bool) then
       r <- attempt (open_read LOG_FILE) ;;
       match r with
       | Ok text => log_loop (last_n 50 (readlines text)) []
       | Raise _ => ret []
       end
     else ret []) ;;
  send_json (PDict [(PStr "entries", PList entries)]).

(** What [do_GET] does with a request: answer through [send_json], or
    hand the (possibly rewritten) path to the static file handler. *)
Inductive reply : Type :=
| Api (r : response)
| Static (path : string).

Definition do_GET (path : string) : M reply :=
  if (path =? "/api/status")%string then r <- send_status ;; ret (Api r)
  else if (path =? "/api/log")%string then r <- send_log ;; ret (Api r)
  else if (path =? "/")%string then ret (Static "/index.html")
  else ret (Static path).

End Server.

(** ** Vocabulary of the specification *)

Module Spec.
Import Py Server.

Definition tasks_file : string := path_join DASHBOARD_DIR "tasks.json".

(** The status file of a task whose [id] is [id]. *)
Definition status_file (e : Env) (id : pyval) : string :=
  path_join STATUS_DIR ("task-" ++ py_str (py_repr e) id ++ ".json").

(** What a request finds at the place of a status file. *)
Inductive overlay : Type :=
| Absent
| Unreadable
| Invalid
| Parsed (v : pyval).

Definition overlay_of (e : Env) (p : string) : overlay :=
  if fs_exists e p then
    match fs_read e p with
    | None => Unreadable
    | Some s =>
        match json_loads e s with
        | None => Invalid
        | Some v => Parsed v
        end
    end
  else Absent.

(** There is no status file, or it cannot be read, or it is not JSON. *)
Definition no_overlay (o : overlay) : bool :=
  match o with
  | Parsed _ => false
  | _ => true
  end.

(** There is no JSON object to merge and no array of pairs either. *)
Definition nothing_to_merge (o : overlay) : bool :=
  match o with
  | Parsed (PDict _) => false
  | Parsed (PList (_ :: _)) => false
  | _ => true
  end.

Definition is_dict (v : pyval) : bool :=
  match v with PDict _ => true | _ => false end.

(** A task record: a mapping with an [id] field. *)
Definition is_task (v : pyval) : bool :=
  match py_getitem v "id" with Ok _ => true | Raise _ => false end.

(** The [tasks] list of a response body. *)
Definition emitted_tasks (r : response) : option (list pyval) :=
  match py_getitem (body r) "tasks" with
  | Ok (PList l) => Some l
  | _ => None
  end.

(** The [entries] list of a response body. *)
Definition emitted_entries (r : response) : option (list pyval) :=
  match body r with
  | PDict [(PStr "entries", PList l)] => Some l
  | _ => None
  end.

(** A dict as Python builds it: hashable keys, no key twice. *)
Fixpoint dict_wf (d : dict) : bool :=
  match d with
  | [] => true
  | (k, _) :: d' =>
      hashable k && negb (existsb (fun kv => key_eqb k (fst kv)) d')
      && dict_wf d'
  end.

(** Shallow merge in the words of the specification: the field of the
    status object where it has one, the field of the task otherwise. *)
Definition shallow_merge_field (task status : dict) (k : pyval)
  : option pyval :=
  match dict_get status k with
  | Some v => Some v
  | None => dict_get task k
  end.

(** The log lines that yield an entry: the last 50 lines, trimmed,
    without the empty ones. *)
Definition kept_lines (text : string) : list string :=
  filter str_truthy (map strip (last_n 50 (readlines text))).

(** The entry of a kept line, in the words of the specification. *)
Definition entry_of (e : Env) (line : string) : pyval :=
  match json_loads e line with
  | Some v => v
  | None => fallback_entry line
  end.

(** Lexical resolution of a path: components between slashes, with
    [.] and empty components dropped and [..] removing its parent. *)
Fixpoint split_slash (s : string) : list string :=
  match s with
  | EmptyString => [EmptyString]
  | String c r =>
      if Ascii.eqb c "/"%char then EmptyString :: split_slash r
      else match split_slash r with
           | [] => [String c EmptyString]
           | x :: xs => String c x :: xs
           end
  end.

Fixpoint resolve (stack : list string) (comps : list string) : list string :=
  match comps with
  | [] => rev stack
  | c :: cs =>
      if (c =? EmptyString)%string || (c =? ".")%string then resolve stack cs
      else if (c =? "..")%string then resolve (tl stack) cs
      else resolve (c :: stack) cs
  end.

Definition resolved (p : string) : list string := resolve [] (split_slash p).

Fixpoint proper_prefix (a b : list string) : bool :=
  match a, b with
  | [], _ :: _ => true
  | x :: a', y :: b' => (x =? y)%string && proper_prefix a' b'
  | _, _ => false
  end.

(** [p] resolves to a place below the directory [dir]. *)
Definition lies_inside (dir p : string) : bool :=
  proper_prefix (resolved dir) (resolved p).

Fixpoint has_slash (s : string) : bool :=
  match s with
  | EmptyString => false
  | String c r => Ascii.eqb c "/"%char || has_slash r
  end.

Definition json_headers : list (string * string) :=
  [("Content-Type", "application/json");
   ("Access-Control-Allow-Origin", "*");
   ("Cache-Control", "no-cache")].

(** The response [send_json] writes for [data]. *)
Definition json_response (data : pyval) : response :=
  {| status_code := 200; headers := json_headers; body := data |}.

(** How [send_json data] ends: the response, or the exception of
    [json.dumps]. *)
Definition respond (e : Env) (data : pyval) : result response :=
  if (depth data <=? recursion_limit e)%nat then Ok (json_response data)
  else Raise RecursionError.

(** The body of the log endpoint for a list of entries. *)
Definition entries_body (entries : list pyval) : pyval :=
  PDict [(PStr "entries", PList entries)].

End Spec.

(** ** Concrete environments for the worked examples *)

Module Fixture.
Import Py MiniJson Server Spec.
Local Open Scope string_scope.

(** A disk: paths with their text; [None] is a file that exists and
    cannot be read. *)
Definition disk := list (string * option string).

Fixpoint disk_find (fs : disk) (p : string) : option (option string) :=
  match fs with
  | [] => None
  | (p0, c) :: fs' => if (p0 =? p)%string then Some c else disk_find fs' p
  end.

(** [json.loads] under a recursion guard: a value nested deeper than
    [limit] is a [RecursionError], not a result. *)
Definition guarded_loads (limit : nat) (s : string) : option pyval :=
  match mini_loads s with
  | Some v => if (depth v <=? limit)%nat then Some v else None
  | None => None
  end.

Lemma guarded_loads_bounded (limit : nat) (s : string) (v : pyval) :
  guarded_loads limit s = Some v -> depth v <= limit.
Proof.
  unfold guarded_loads. destruct (mini_loads s) as [w|]; [|discriminate].
  destruct (depth w <=? limit)%nat eqn:H; [|discriminate].
  intro E. inversion E; subst. apply Nat.leb_le. assumption.
Qed.

(** The environment of a disk under a recursion guard of [room + 2]
    levels.  The examples have int and str ids only, so [py_repr] is
    never called in them; it is given a fixed text. *)
Definition env_with (room : nat) (fs : disk) : Env :=
  {| fs_exists := fun p => match disk_find fs p with
                           | Some _ => true
                           | None => false
                           end;
     fs_read := fun p => match disk_find fs p with
                         | Some c => c
                         | None => None
                         end;
     json_loads := guarded_loads (room + 2);
     py_repr := fun _ => "<repr>";
     now_iso := "2026-01-15T09:30:00.000123";
     recursion_limit := room + 2;
     loads_bounded := guarded_loads_bounded (room + 2);
     limit_floor := Nat.le_add_l 2 room |}.

Definition env_of (fs : disk) : Env := env_with 998 fs.

(** A JSON string literal. *)
Definition js (s : string) : string := q ++ s ++ q.

Definition nl : string := String newline EmptyString.

Definition status_1 : string := path_join STATUS_DIR "task-1.json".

(** The task list of the specification's example. *)
Definition tasks_doc : string :=
  "{" ++ js "tasks" ++ ":[{" ++ js "id" ++ ":1," ++ js "title" ++ ":"
  ++ js "A" ++ "}]}".

Definition env_plain : Env := env_of [(tasks_file, Some tasks_doc)].

Definition env_done : Env :=
  env_of [(tasks_file, Some tasks_doc);
          (status_1, Some ("{" ++ js "state" ++ ":" ++ js "done" ++ "}"))].

Definition env_locked : Env :=
  env_of [(tasks_file, Some tasks_doc); (status_1, None)].

(** The status file holds an array: one pair, then a number. *)
Definition env_pairs : Env :=
  env_of [(tasks_file, Some tasks_doc);
          (status_1, Some ("[[" ++ js "state" ++ "," ++ js "done" ++ "],5]"))].

Definition env_no_tasks : Env := env_of [].

Definition env_empty_object : Env := env_of [(tasks_file, Some "{}")].

Definition env_tasks_number : Env :=
  env_of [(tasks_file, Some ("{" ++ js "tasks" ++ ":5}"))].

Definition env_task_without_id : Env :=
  env_of [(tasks_file,
           Some ("{" ++ js "tasks" ++ ":[{" ++ js "title" ++ ":" ++ js "A"
                 ++ "}]}"))].

(** A task whose id walks out of the status directory. *)
Definition env_dotdot : Env :=
  env_of [(tasks_file,
           Some ("{" ++ js "tasks" ++ ":[{" ++ js "id" ++ ":"
                 ++ js "a/../../tasks" ++ "}]}"))].

(** The activity log of the specification's example, a blank line and
    a bare number added. *)
Definition log_text : string :=
  "{" ++ js "time" ++ ":" ++ js "t1" ++ "," ++ js "msg" ++ ":" ++ js "x"
  ++ "}" ++ nl ++ "   " ++ nl ++ "not json" ++ nl ++ "42" ++ nl.

Definition env_log : Env := env_of [(LOG_FILE, Some log_text)].

End Fixture.

(** ** Further vocabulary: traces, key order, blank lines *)

Module More.
Import Py MiniJson Server Spec Fixture.
Local Open Scope string_scope.

(** [k in d] *)
Definition dict_has (d : dict) (k : pyval) : bool :=
  existsb (fun kv => key_eqb (fst kv) k) d.

(** [list(d)]: the keys in insertion order. *)
Definition keys (d : dict) : list pyval := map fst d.

(** The file-system calls of one round of the loop of [send_status]
    for a task record: [exists], and [open] when the file exists. *)
Definition status_calls (e : Env) (task : pyval) : list fs_call :=
  match py_getitem task "id" with
  | Ok id =>
      let p := status_file e id in
      if fs_exists e p then [CallExists p; CallOpen p] else [CallExists p]
  | Raise _ => []
  end.

(** The record one round of the loop leaves for a task record. *)
Definition merged (e : Env) (task : pyval) : pyval :=
  match py_getitem task "id" with
  | Ok id =>
      match overlay_of e (status_file e id) with
      | Parsed v => fst (py_update task v)
      | _ => task
      end
  | Raise _ => task
  end.

(** What [send_status] hands to [send_json] for a document [d] whose
    [tasks] is the list of task records [ts]. *)
Definition status_body (e : Env) (d : dict) (ts : list pyval) : pyval :=
  PDict (dict_set (dict_set d (PStr "tasks") (PList (map (merged e) ts)))
           (PStr "server_time") (PStr (now_iso e))).

(** How a request that reached [send_json data] ends. *)
Definition api_outcome (e : Env) (data : pyval) : result reply :=
  match respond e data with
  | Ok r => Ok (Api r)
  | Raise x => Raise x
  end.

(** An element of an array that [update] accepts as a key and a
    value. *)
Definition as_pair (item : pyval) : option (pyval * pyval) :=
  match py_iter item with
  | Some [k; v] => if hashable k then Some (k, v) else None
  | _ => None
  end.

(** The pairs of an array up to its first element that is none. *)
Fixpoint leading_pairs (items : list pyval) : list (pyval * pyval) :=
  match items with
  | [] => []
  | item :: rest =>
      match as_pair item with
      | Some kv => kv :: leading_pairs rest
      | None => []
      end
  end.

Definition is_list (v : pyval) : bool :=
  match v with PList _ => true | _ => false end.

(** The keys of a dict are hashable, as Python has it. *)
Definition hashable_keys (v : pyval) : bool :=
  match v with
  | PDict d => forallb hashable (map fst d)
  | _ => true
  end.

Fixpoint all_space (s : string) : bool :=
  match s with
  | EmptyString => true
  | String c r => is_space c && all_space r
  end.

Definition first_char (s : string) : option ascii :=
  match s with
  | EmptyString => None
  | String c _ => Some c
  end.

Fixpoint last_char (s : string) : option ascii :=
  match s with
  | EmptyString => None
  | String c EmptyString => Some c
  | String _ r => last_char r
  end.

Definition ends_with_newline (s : string) : bool :=
  match last_char s with
  | Some c => Ascii.eqb c newline
  | None => false
  end.

(** Two environments with the same library routines and clock, under
    the same recursion guard. *)
Definition same_library (e e' : Env) : Prop :=
  (forall s, json_loads e s = json_loads e' s) /\
  (forall v, py_repr e v = py_repr e' v) /\
  now_iso e = now_iso e' /\
  recursion_limit e = recursion_limit e'.

(** Two environments that show the same file at [p]. *)
Definition same_file (e e' : Env) (p : string) : Prop :=
  fs_exists e p = fs_exists e' p /\ fs_read e p = fs_read e' p.

Fixpoint repeat_text (n : nat) (s : string) : string :=
  match n with
  | O => EmptyString
  | S n' => s ++ repeat_text n' s
  end.

(** Fifty lines, each the number 42. *)
Definition recent_log : string := repeat_text 50 ("42" ++ nl).

Definition env_recent : Env := env_of [(LOG_FILE, Some recent_log)].

Definition env_long : Env :=
  env_of [(LOG_FILE, Some (("old line" ++ nl) ++ recent_log))].

(** Two tasks, the second without an id. *)
Definition env_second_bad : Env :=
  env_of [(tasks_file,
           Some ("{" ++ js "tasks" ++ ":[{" ++ js "id" ++ ":1},{"
                 ++ js "title" ++ ":" ++ js "B" ++ "}]}"))].

Definition env_tasks_empty_object : Env :=
  env_of [(tasks_file, Some ("{" ++ js "tasks" ++ ":{}}"))].

Definition env_array_document : Env := env_of [(tasks_file, Some "[1,2]")].

(** [env_done] with an unrelated file beside it. *)
Definition env_done_more : Env :=
  env_of [(tasks_file, Some tasks_doc);
          (status_1, Some ("{" ++ js "state" ++ ":" ++ js "done" ++ "}"));
          (path_join STATUS_DIR "task-2.json", Some "{}")].

Definition env_log_unreadable : Env := env_of [(LOG_FILE, None)].

(** A recursion guard of three levels and a log line nested three
    deep: the line loads, the body around it is five deep. *)
Definition env_deep_log : Env := env_with 1 [(LOG_FILE, Some "[[[1]]]")].

(** A recursion guard of four levels, the task list of the example
    (three deep) and a status object with a value nested two deep. *)
Definition env_deep_status : Env :=
  env_with 2 [(tasks_file, Some tasks_doc);
              (status_1, Some ("{" ++ js "v" ++ ":[[1]]}"))].

End More.

Import Py MiniJson Server Spec Fixture More.
Local Open Scope string_scope.

(** ** Keys and dicts *)

Section KeyFacts.

Lemma pynum_eqb_eq (a b : pynum) : pynum_eqb a b = true <-> a = b.
Proof.
  destruct a, b; simpl; split; intro H; try discriminate; try congruence.
  - apply Z.eqb_eq in H. congruence.
  - inversion H. apply Z.eqb_refl.
  - apply andb_true_iff in H as [H He]. apply andb_true_iff in H as [Hs Hm].
    apply Bool.eqb_prop in Hs. apply Pos.eqb_eq in Hm. apply Z.eqb_eq in He.
    congruence.
  - inversion H. subst.
    rewrite Bool.eqb_reflx, Pos.eqb_refl, Z.eqb_refl. reflexivity.
  - apply Bool.eqb_prop in H. congruence.
  - inversion H. apply Bool.eqb_reflx.
Qed.

Lemma pykey_eqb_eq (a b : pykey) : pykey_eqb a b = true <-> a = b.
Proof.
  destruct a, b; simpl; split; intro H; try discriminate; try congruence.
  - apply String.eqb_eq in H. congruence.
  - inversion H. apply String.eqb_refl.
  - apply pynum_eqb_eq in H. congruence.
  - inversion H. apply pynum_eqb_eq. reflexivity.
Qed.

(** Two keys that are equal compare alike with every third key. *)
Lemma key_eqb_trans (a b c : pyval) :
  key_eqb a b = true -> key_eqb a c = key_eqb b c.
Proof.
  unfold key_eqb.
  destruct (py_hash a) as [x|]; [|discriminate].
  destruct (py_hash b) as [y|]; [|discriminate].
  intro H. apply pykey_eqb_eq in H. subst y. reflexivity.
Qed.

Lemma key_eqb_str (s t : string) : key_eqb (PStr s) (PStr t) = (s =? t)%string.
Proof. reflexivity. Qed.

Lemma dict_get_set (d : dict) (k v k' : pyval) :
  dict_get (dict_set d k v) k'
  = if key_eqb k k' then Some v else dict_get d k'.
Proof.
  induction d as [|[k0 v0] d IH]; simpl.
  - reflexivity.
  - destruct (key_eqb k0 k) eqn:E0; simpl.
    + rewrite (key_eqb_trans _ _ k' E0). destruct (key_eqb k k'); reflexivity.
    + rewrite IH. destruct (key_eqb k0 k') eqn:E1; [|reflexivity].
      destruct (key_eqb k k') eqn:E2; [|reflexivity].
      exfalso. unfold key_eqb in E0, E1, E2.
      destruct (py_hash k0), (py_hash k), (py_hash k'); try discriminate.
      apply pykey_eqb_eq in E1, E2. subst.
      rewrite (proj2 (pykey_eqb_eq _ _) eq_refl) in E0. discriminate.
Qed.

Lemma dict_get_absent (d : dict) (k k' : pyval) :
  existsb (fun kv => key_eqb k (fst kv)) d = false ->
  key_eqb k k' = true -> dict_get d k' = None.
Proof.
  induction d as [|[k0 v0] d IH]; simpl; intros Hn Hk; [reflexivity|].
  apply orb_false_iff in Hn as [H0 Hd].
  rewrite (key_eqb_trans _ _ k0 Hk) in H0.
  assert (E : key_eqb k0 k' = false).
  { unfold key_eqb in *. destruct (py_hash k0), (py_hash k'); try reflexivity.
    destruct (pykey_eqb p p0) eqn:E; [|reflexivity].
    apply pykey_eqb_eq in E. subst.
    rewrite (proj2 (pykey_eqb_eq _ _) eq_refl) in H0. discriminate. }
  rewrite E. apply IH; assumption.
Qed.

(** [update] with a well-formed dict is the shallow merge of the
    specification, field by field. *)
Lemma dict_merge_field (other d : dict) (k : pyval) :
  dict_wf other = true ->
  dict_get (dict_merge d other) k = shallow_merge_field d other k.
Proof.
  unfold dict_merge, shallow_merge_field.
  revert d. induction other as [|[k0 v0] other IH]; simpl; intros d Hwf.
  - reflexivity.
  - apply andb_true_iff in Hwf as [Hwf Hrest].
    apply andb_true_iff in Hwf as [_ Hfresh].
    apply negb_true_iff in Hfresh.
    rewrite IH by assumption. rewrite dict_get_set.
    destruct (key_eqb k0 k) eqn:E.
    + rewrite (dict_get_absent other k0 k Hfresh E). reflexivity.
    + reflexivity.
Qed.

End KeyFacts.

(** ** Running the handlers *)

Section Runs.

Variable e : Env.

Lemma merge_status_run (task id : pyval) :
  py_getitem task "id" = Ok id ->
  merge_status task e =
    let p := status_file e id in
    match overlay_of e p with
    | Absent => ([CallExists p], Ok task)
    | Unreadable | Invalid => ([CallExists p; CallOpen p], Ok task)
    | Parsed v => ([CallExists p; CallOpen p], Ok (fst (py_update task v)))
    end.
Proof.
  intro H.
  unfold merge_status, bind, lift, format, path_exists, attempt, json_load,
    bind, open_read, loads, ret, overlay_of, status_file.
  rewrite H. cbn zeta iota beta.
  generalize (path_join STATUS_DIR
                ("task-" ++ py_str (py_repr e) id ++ ".json")) as p.
  intro p. destruct (fs_exists e p); [|reflexivity].
  destruct (fs_read e p) as [s|]; [|reflexivity].
  destruct (json_loads e s); reflexivity.
Qed.

Lemma merge_status_raises (task : pyval) (x : exn) :
  py_getitem task "id" = Raise x -> merge_status task e = ([], Raise x).
Proof.
  intro H. unfold merge_status, bind, lift. rewrite H. reflexivity.
Qed.

(** A task record always leaves the loop body with a value. *)
Lemma merge_status_total (task : pyval) :
  is_task task = true -> exists tr t', merge_status task e = (tr, Ok t').
Proof.
  unfold is_task. destruct (py_getitem task "id") as [id|] eqn:H;
    [intros _|discriminate].
  rewrite (merge_status_run _ _ H). cbv zeta.
  destruct (overlay_of e (status_file e id)); eauto.
Qed.

Lemma for_each_inv {A B : Type} (f : A -> M B) (l : list A) t (l' : list B) :
  for_each f l e = (t, Ok l') ->
  Forall2 (fun x y => exists tx, f x e = (tx, Ok y)) l l'.
Proof.
  revert t l'. induction l as [|x xs IH]; simpl; intros t l' H.
  - unfold ret in H. inversion H. constructor.
  - unfold bind in H. destruct (f x e) as [t1 [y|ex]] eqn:Hx; [|discriminate].
    destruct (for_each f xs e) as [t2 [ys|ex]] eqn:Hxs; [|discriminate].
    cbn in H. inversion H; subst. constructor; eauto.
Qed.

Lemma for_each_total {A B : Type} (f : A -> M B) (l : list A) :
  Forall (fun x => exists tx y, f x e = (tx, Ok y)) l ->
  exists t l', for_each f l e = (t, Ok l').
Proof.
  induction 1 as [|x xs [tx [y Hx]] _ [t [l' IH]]]; simpl.
  - unfold ret. eauto.
  - unfold bind, ret. rewrite Hx, IH. eauto.
Qed.

Lemma for_each_trace {A B : Type} (f : A -> M B) (P : fs_call -> Prop)
      (l : list A) :
  Forall (fun x => Forall P (fst (f x e))) l ->
  Forall P (fst (for_each f l e)).
Proof.
  induction 1 as [|x xs Hx _ IH]; simpl.
  - constructor.
  - unfold bind. destruct (f x e) as [t1 [y|ex]]; simpl in *; [|assumption].
    destruct (for_each f xs e) as [t2 [ys|ex]]; simpl in *;
      rewrite ?app_nil_r; apply Forall_app; auto.
Qed.

(** [send_json]: the response, unless [json.dumps] raises. *)
Lemma send_json_run (data : pyval) : send_json data e = ([], respond e data).
Proof.
  unfold send_json, dumps, bind, ret, respond.
  destruct (depth data <=? recursion_limit e)%nat; reflexivity.
Qed.

(** A body of two levels at most is always written. *)
Lemma respond_shallow (data : pyval) :
  depth data <= 2 -> respond e data = Ok (json_response data).
Proof.
  intro H. unfold respond. pose proof (limit_floor e) as Hf.
  rewrite (proj2 (Nat.leb_le _ _)); [reflexivity|lia].
Qed.

Lemma respond_inv (data : pyval) (r : response) :
  respond e data = Ok r ->
  r = json_response data /\ depth data <= recursion_limit e.
Proof.
  unfold respond. destruct (depth data <=? recursion_limit e)%nat eqn:H;
    [|discriminate].
  intro E. inversion E. split; [reflexivity|]. apply Nat.leb_le. assumption.
Qed.

(** What [json.loads] returned is written as it is. *)
Lemma respond_loaded (s : string) (data : pyval) :
  json_loads e s = Some data -> respond e data = Ok (json_response data).
Proof.
  intro H. unfold respond.
  rewrite (proj2 (Nat.leb_le _ _) (loads_bounded e s data H)). reflexivity.
Qed.

(** [send_status], case by case. *)
Lemma send_status_run :
  send_status e =
    match fs_read e tasks_file with
    | None => ([CallOpen tasks_file], Ok (json_response error_body))
    | Some s =>
        match json_loads e s with
        | None => ([CallOpen tasks_file], Ok (json_response error_body))
        | Some data =>
            match py_getitem data "tasks" with
            | Raise x => ([CallOpen tasks_file], Raise x)
            | Ok tasks =>
                match for_tasks tasks e, data with
                | (t, Raise x), _ => (CallOpen tasks_file :: t, Raise x)
                | (t, Ok tasks'), PDict d =>
                    (CallOpen tasks_file :: t,
                     respond e
                       (PDict (dict_set (dict_set d (PStr "tasks") tasks')
                                 (PStr "server_time")
                                 (PStr (now_iso e)))))
                | (t, Ok _), _ => (CallOpen tasks_file :: t, Raise TypeError)
                end
            end
        end
    end.
Proof.
  assert (Herr : send_json error_body e
                 = ([], Ok (json_response error_body))).
  { rewrite send_json_run, respond_shallow; [reflexivity|simpl; lia]. }
  unfold send_status, bind, attempt, json_load, bind, open_read, loads, lift,
    now, raise.
  fold tasks_file. cbn zeta iota beta.
  destruct (fs_read e tasks_file) as [s|]; [|rewrite Herr; reflexivity].
  destruct (json_loads e s) as [data|]; [|rewrite Herr; reflexivity].
  cbn -[send_json].
  destruct (py_getitem data "tasks") as [tasks|x]; [|reflexivity].
  destruct (for_tasks tasks e) as [t [tasks'|x]]; [|reflexivity].
  destruct data; cbn -[send_json]; rewrite ?send_json_run, ?app_nil_r;
    reflexivity.
Qed.

(** The loop of [send_log] touches no file, never raises, and appends
    one entry per line that is not blank. *)
Lemma log_loop_run (lines : list string) (entries : list pyval) :
  log_loop lines entries e =
    ([], Ok (entries
             ++ map (entry_of e) (filter str_truthy (map strip lines)))%list).
Proof.
  revert entries. induction lines as [|line rest IH]; intro entries; simpl.
  - rewrite app_nil_r. reflexivity.
  - destruct (str_truthy (strip line)) eqn:Hs.
    + unfold bind, attempt, loads, entry_of. simpl.
      destruct (json_loads e (strip line)) as [v|]; rewrite IH; cbn;
        rewrite <- app_assoc; reflexivity.
    + apply IH.
Qed.

Lemma send_log_run :
  send_log e =
    if fs_exists e LOG_FILE then
      match fs_read e LOG_FILE with
      | None =>
          ([CallExists LOG_FILE; CallOpen LOG_FILE],
           Ok (json_response (PDict [(PStr "entries", PList [])])))
      | Some text =>
          ([CallExists LOG_FILE; CallOpen LOG_FILE],
           respond e (entries_body (map (entry_of e) (kept_lines text))))
      end
    else
      ([CallExists LOG_FILE],
       Ok (json_response (PDict [(PStr "entries", PList [])]))).
Proof.
  assert (Hnone : send_json (PDict [(PStr "entries", PList [])]) e
                  = ([], Ok (json_response
                               (PDict [(PStr "entries", PList [])])))).
  { rewrite send_json_run, respond_shallow; [reflexivity|simpl; lia]. }
  unfold send_log, bind, attempt, open_read, path_exists, ret.
  destruct (fs_exists e LOG_FILE); [|rewrite Hnone; reflexivity].
  destruct (fs_read e LOG_FILE) as [text|]; [|rewrite Hnone; reflexivity].
  rewrite log_loop_run, send_json_run. reflexivity.
Qed.

Lemma do_GET_status :
  do_GET "/api/status" e =
    match send_status e with
    | (t, Ok r) => (t, Ok (Api r))
    | (t, Raise x) => (t, Raise x)
    end.
Proof.
  unfold do_GET.
  replace ("/api/status" =? "/api/status")%string with true by reflexivity.
  unfold bind, ret.
  destruct (send_status e) as [t [r|x]]; rewrite ?app_nil_r; reflexivity.
Qed.

Lemma do_GET_log :
  do_GET "/api/log" e =
    match send_log e with
    | (t, Ok r) => (t, Ok (Api r))
    | (t, Raise x) => (t, Raise x)
    end.
Proof.
  unfold do_GET.
  replace ("/api/log" =? "/api/status")%string with false by reflexivity.
  replace ("/api/log" =? "/api/log")%string with true by reflexivity.
  unfold bind, ret.
  destruct (send_log e) as [t [r|x]]; rewrite ?app_nil_r; reflexivity.
Qed.

End Runs.

(** ** The status endpoint *)

Section Status.

Variable e : Env.

Lemma Forall2_nth_error {A B : Type} (R : A -> B -> Prop) (l : list A)
      (l' : list B) (i : nat) (x : A) :
  Forall2 R l l' -> nth_error l i = Some x ->
  exists y, nth_error l' i = Some y /\ R x y.
Proof.
  intro H. revert i. induction H as [|a b l l' Hab _ IH]; intros [|i] Hi;
    simpl in *; try discriminate.
  - inversion Hi; subst. eauto.
  - apply IH. assumption.
Qed.

Lemma emitted_tasks_response (d : dict) (tasks' : list pyval) (now : string) :
  emitted_tasks
    (json_response
       (PDict (dict_set (dict_set d (PStr "tasks") (PList tasks'))
                 (PStr "server_time") (PStr now))))
  = Some tasks'.
Proof.
  unfold emitted_tasks, json_response, py_getitem. cbn [body].
  rewrite !dict_get_set. reflexivity.
Qed.

(** A response of the status endpoint to a document with a [tasks]
    list: the body is the document with every task run through the
    loop body, in place, and [server_time] stored last. *)
Lemma status_emits (s : string) (data : pyval) (ts : list pyval)
      (t : list fs_call) (r : response) :
  fs_read e tasks_file = Some s ->
  json_loads e s = Some data ->
  py_getitem data "tasks" = Ok (PList ts) ->
  do_GET "/api/status" e = (t, Ok (Api r)) ->
  exists d ts',
    data = PDict d /\
    r = json_response
          (PDict (dict_set (dict_set d (PStr "tasks") (PList ts'))
                    (PStr "server_time") (PStr (now_iso e)))) /\
    Forall2 (fun t0 t' => exists tr, merge_status t0 e = (tr, Ok t')) ts ts'.
Proof.
  intros Hs Hd Ht H.
  rewrite do_GET_status, send_status_run, Hs, Hd, Ht in H.
  unfold for_tasks, bind, ret in H.
  destruct (for_each merge_status ts e) as [t1 [ts'|x]] eqn:Hloop;
    [|discriminate].
  destruct data as [| | | | |l|d]; try discriminate.
  destruct (respond e _) as [r0|x] eqn:Hr0 in H; [|discriminate].
  apply respond_inv in Hr0 as [Hr0 _].
  exists d, ts'. split; [reflexivity|]. split.
  - inversion H. subst. reflexivity.
  - eapply for_each_inv. eassumption.
Qed.

(** What the loop body returns for a task record. *)
Lemma merge_status_value (task id t' : pyval) (tr : list fs_call) :
  py_getitem task "id" = Ok id ->
  merge_status task e = (tr, Ok t') ->
  t' = match overlay_of e (status_file e id) with
       | Parsed v => fst (py_update task v)
       | _ => task
       end.
Proof.
  intros Hid H. rewrite (merge_status_run e _ _ Hid) in H. cbv zeta in H.
  destruct (overlay_of e (status_file e id)); inversion H; reflexivity.
Qed.

Lemma merge_seq2_chars (d : dict) (s : string) : fst (merge_seq2 d (chars s)) = d.
Proof. destruct s; reflexivity. Qed.

(** [update] stores nothing unless it is handed an object or an array
    that has an element. *)
Lemma update_nothing (d : dict) (o : overlay) :
  nothing_to_merge o = true ->
  match o with
  | Parsed v => fst (py_update (PDict d) v)
  | _ => PDict d
  end = PDict d.
Proof.
  destruct o as [| | |v]; try reflexivity.
  destruct v as [| | | |s|[|x l]|]; simpl; try reflexivity; try discriminate.
  intros _. unfold py_update, dict_update.
  pose proof (merge_seq2_chars d s) as H.
  destruct (merge_seq2 d (chars s)). simpl in *. congruence.
Qed.

End Status.

(** ** Claims about the status endpoint *)

(** A document without a [tasks] field escapes every handler of
    [send_status], whatever reader is used. *)
Lemma status_missing_tasks_field (e : Env) (s : string) (d : dict) :
  fs_read e tasks_file = Some s ->
  json_loads e s = Some (PDict d) ->
  dict_get d (PStr "tasks") = None ->
  do_GET "/api/status" e = ([CallOpen tasks_file], Raise (KeyError (PStr "tasks"))).
Proof.
  intros Hs Hd Ht. rewrite do_GET_status, send_status_run, Hs, Hd.
  unfold py_getitem. rewrite Ht. reflexivity.
Qed.

(** C1.  The claim: whenever the task list parses as JSON, also when it
    has no [tasks] field, when [tasks] is not a list or when a task has
    no [id], GET /api/status answers and no fault escapes.  The code at
    three such files: [{}], [{"tasks":5}] and [{"tasks":[{"title":"A"}]}]
    each parse, and each request ends in an exception that no handler
    catches ([KeyError], [TypeError], [KeyError]), so no response is
    written. *)
Theorem status_faults_on_malformed_document :
  (json_loads env_empty_object "{}" = Some (PDict []) /\
   do_GET "/api/status" env_empty_object
   = ([CallOpen tasks_file], Raise (KeyError (PStr "tasks")))) /\
  (overlay_of env_tasks_number tasks_file
   = Parsed (PDict [(PStr "tasks", PInt 5)]) /\
   do_GET "/api/status" env_tasks_number
   = ([CallOpen tasks_file], Raise TypeError)) /\
  (overlay_of env_task_without_id tasks_file
   = Parsed (PDict [(PStr "tasks", PList [PDict [(PStr "title", PStr "A")]])]) /\
   do_GET "/api/status" env_task_without_id
   = ([CallOpen tasks_file], Raise (KeyError (PStr "id")))).
Proof. repeat split; vm_compute; reflexivity. Qed.




(** C3.  For a task record whose status file exists and parses as a
    JSON object, the record emitted by GET /api/status is the task
    record updated with the status object: field by field it is the
    shallow merge of the two, and where both have the key the value of
    the status file is the one emitted. *)
Theorem status_record_merged (e : Env) (s : string) (data : pyval)
        (ts : list pyval) (t : list fs_call) (r : response) (i : nat)
        (d : dict) (id : pyval) (status : dict) :
  fs_read e tasks_file = Some s ->
  json_loads e s = Some data ->
  py_getitem data "tasks" = Ok (PList ts) ->
  do_GET "/api/status" e = (t, Ok (Api r)) ->
  nth_error ts i = Some (PDict d) ->
  dict_get d (PStr "id") = Some id ->
  overlay_of e (status_file e id) = Parsed (PDict status) ->
  dict_wf status = true ->
  exists ts' m,
    emitted_tasks r = Some ts' /\
    nth_error ts' i = Some (PDict m) /\
    m = dict_merge d status /\
    (forall k, dict_get m k = shallow_merge_field d status k) /\
    (forall k v, dict_get status k = Some v -> dict_get m k = Some v).
Proof.
  intros Hs Hd Ht Hget Hi Hid Hov Hwf.
  destruct (status_emits e s data ts t r Hs Hd Ht Hget)
    as (d0 & ts' & _ & Hr & Hall).
  exists ts', (dict_merge d status). split; [|split; [|split; [|split]]].
  - rewrite Hr. apply emitted_tasks_response.
  - destruct (Forall2_nth_error _ _ _ _ _ Hall Hi) as (t' & Hi' & tr & Hrun).
    rewrite Hi'. f_equal.
    assert (Hid' : py_getitem (PDict d) "id" = Ok id)
      by (unfold py_getitem; rewrite Hid; reflexivity).
    rewrite (merge_status_value e _ id t' tr Hid' Hrun), Hov. reflexivity.
  - reflexivity.
  - intro k. apply dict_merge_field. assumption.
  - intros k v Hk. rewrite dict_merge_field by assumption.
    unfold shallow_merge_field. rewrite Hk. reflexivity.
Qed.

Lemma status_record_merged_witness :
  exists ts' m,
    emitted_tasks
      (json_response
         (PDict [(PStr "tasks",
                  PList [PDict [(PStr "id", PInt 1); (PStr "title", PStr "A");
                                (PStr "state", PStr "done")]]);
                 (PStr "server_time", PStr (now_iso env_done))]))
    = Some ts' /\
    nth_error ts' 0 = Some (PDict m) /\
    m = dict_merge [(PStr "id", PInt 1); (PStr "title", PStr "A")]
          [(PStr "state", PStr "done")] /\
    (forall k,
        dict_get m k
        = shallow_merge_field [(PStr "id", PInt 1); (PStr "title", PStr "A")]
            [(PStr "state", PStr "done")] k) /\
    (forall k v,
        dict_get [(PStr "state", PStr "done")] k = Some v ->
        dict_get m k = Some v).
Proof.
  apply (status_record_merged env_done tasks_doc
           (PDict [(PStr "tasks",
                    PList [PDict [(PStr "id", PInt 1);
                                  (PStr "title", PStr "A")]])])
           [PDict [(PStr "id", PInt 1); (PStr "title", PStr "A")]]
           [CallOpen tasks_file; CallExists status_1; CallOpen status_1]
           _ 0 _ (PInt 1)); vm_compute; reflexivity.
Defined.

(** C4.  For a valid task-list document (an object whose [tasks] is a
    list of records with an [id]), every response of GET /api/status
    has a body in which every top-level field other than [tasks] and
    [server_time] has the value of the document; [tasks] is a list of
    the same length whose i-th record is what the loop body made of the
    i-th record of the document; and [server_time] holds the clock
    reading, whether or not the document had such a field. *)
Theorem status_document_frame (e : Env) (s : string) (d : dict)
        (ts : list pyval) (t : list fs_call) (r : response) :
  fs_read e tasks_file = Some s ->
  json_loads e s = Some (PDict d) ->
  dict_get d (PStr "tasks") = Some (PList ts) ->
  forallb is_task ts = true ->
  do_GET "/api/status" e = (t, Ok (Api r)) ->
  exists b ts',
    body r = PDict b /\
    (forall k, key_eqb (PStr "tasks") k = false ->
               key_eqb (PStr "server_time") k = false ->
               dict_get b k = dict_get d k) /\
    dict_get b (PStr "tasks") = Some (PList ts') /\
    List.length ts' = List.length ts /\
    Forall2 (fun t0 t' => exists tr, merge_status t0 e = (tr, Ok t')) ts ts' /\
    dict_get b (PStr "server_time") = Some (PStr (now_iso e)).
Proof.
  intros Hs Hd Ht Hvalid Hget.
  assert (Hg : py_getitem (PDict d) "tasks" = Ok (PList ts))
    by (unfold py_getitem; rewrite Ht; reflexivity).
  destruct (status_emits e s _ ts t r Hs Hd Hg Hget)
    as (d0 & ts' & Hd0 & Hr & Hall).
  inversion Hd0; subst d0.
  exists (dict_set (dict_set d (PStr "tasks") (PList ts'))
            (PStr "server_time") (PStr (now_iso e))).
  exists ts'.
  split; [|split; [|split; [|split; [|split]]]].
  - rewrite Hr. reflexivity.
  - intros k H1 H2. rewrite !dict_get_set, H1, H2. reflexivity.
  - rewrite !dict_get_set. reflexivity.
  - symmetry. eapply Forall2_length. eassumption.
  - assumption.
  - rewrite dict_get_set. reflexivity.
Qed.

Lemma status_document_frame_witness :
  exists b ts',
    body (json_response
            (PDict [(PStr "tasks",
                     PList [PDict [(PStr "id", PInt 1);
                                   (PStr "title", PStr "A");
                                   (PStr "state", PStr "done")]]);
                    (PStr "server_time", PStr (now_iso env_done))]))
    = PDict b /\
    (forall k, key_eqb (PStr "tasks") k = false ->
               key_eqb (PStr "server_time") k = false ->
               dict_get b k
               = dict_get
                   [(PStr "tasks",
                     PList [PDict [(PStr "id", PInt 1);
                                   (PStr "title", PStr "A")]])] k) /\
    dict_get b (PStr "tasks") = Some (PList ts') /\
    List.length ts' = 1 /\
    Forall2 (fun t0 t' => exists tr, merge_status t0 env_done = (tr, Ok t'))
      [PDict [(PStr "id", PInt 1); (PStr "title", PStr "A")]] ts' /\
    dict_get b (PStr "server_time") = Some (PStr (now_iso env_done)).
Proof.
  apply (status_document_frame env_done tasks_doc
           [(PStr "tasks",
             PList [PDict [(PStr "id", PInt 1); (PStr "title", PStr "A")]])]
           [PDict [(PStr "id", PInt 1); (PStr "title", PStr "A")]]
           [CallOpen tasks_file; CallExists status_1; CallOpen status_1]);
    vm_compute; reflexivity.
Defined.

(** C5.  Whenever the task-list file is missing or unreadable ([open]
    raises) or is not valid JSON ([json.load] raises), GET /api/status
    answers with status 200 and the body [{"error": "tasks.json not
    found"}]; the task-list file is the only file the request touches,
    so nothing is merged. *)
Theorem status_tasks_file_unavailable (e : Env) :
  fs_read e tasks_file = None \/
  (exists s, fs_read e tasks_file = Some s /\ json_loads e s = None) ->
  do_GET "/api/status" e
  = ([CallOpen tasks_file],
     Ok (Api {| status_code := 200;
                headers := json_headers;
                body := PDict [(PStr "error", PStr "tasks.json not found")] |})).
Proof.
  intros [H | (s & Hs & Hd)]; rewrite do_GET_status, send_status_run.
  - rewrite H. reflexivity.
  - rewrite Hs, Hd. reflexivity.
Qed.

Lemma status_tasks_file_unavailable_witness :
  do_GET "/api/status" env_no_tasks
  = ([CallOpen tasks_file],
     Ok (Api {| status_code := 200;
                headers := json_headers;
                body := PDict [(PStr "error", PStr "tasks.json not found")] |})).
Proof.
  apply (status_tasks_file_unavailable env_no_tasks).
  left. reflexivity.
Defined.

(** ** Where the status file lies *)

Section Paths.

Lemma split_slash_cons (s : string) : exists x xs, split_slash s = x :: xs.
Proof.
  induction s as [|c r (x & xs & IH)]; simpl.
  - eauto.
  - destruct (Ascii.eqb c "/"); [eauto|]. rewrite IH. eauto.
Qed.

Lemma split_slash_join (a b : string) :
  split_slash (a ++ String "/" b) = (split_slash a ++ split_slash b)%list.
Proof.
  induction a as [|c a IH]; simpl.
  - reflexivity.
  - destruct (Ascii.eqb c "/").
    + rewrite IH. reflexivity.
    + rewrite IH. destruct (split_slash_cons a) as (x & xs & H).
      rewrite H. reflexivity.
Qed.

Lemma split_slash_plain (s : string) :
  has_slash s = false -> split_slash s = [s].
Proof.
  induction s as [|c r IH]; simpl; intro H.
  - reflexivity.
  - apply orb_false_iff in H as [Hc Hr]. rewrite Hc, (IH Hr). reflexivity.
Qed.

Lemma has_slash_app (a b : string) :
  has_slash (a ++ b) = has_slash a || has_slash b.
Proof.
  induction a as [|c a IH]; simpl.
  - reflexivity.
  - rewrite IH. apply orb_assoc.
Qed.

(** The path [os.path.join] builds for a status file. *)
Lemma status_file_eq (e : Env) (id : pyval) :
  status_file e id
  = STATUS_DIR ++ "/task-" ++ py_str (py_repr e) id ++ ".json".
Proof. reflexivity. Qed.

(** A status file whose name has no slash is an entry of the status
    directory. *)
Lemma plain_name_inside (name : string) :
  has_slash name = false ->
  lies_inside STATUS_DIR (STATUS_DIR ++ "/task-" ++ name ++ ".json") = true.
Proof.
  intro H. unfold lies_inside, resolved.
  change (STATUS_DIR ++ "/task-" ++ name ++ ".json")
    with (STATUS_DIR ++ String "/" ("task-" ++ name ++ ".json")).
  rewrite split_slash_join.
  rewrite (split_slash_plain ("task-" ++ name ++ ".json")).
  - reflexivity.
  - change ("task-" ++ name ++ ".json") with ("task-" ++ (name ++ ".json")).
    rewrite !has_slash_app, H. reflexivity.
Qed.

End Paths.

(** C6, as stated, fails: a task whose id is [a/../../tasks] sends the
    request to [STATUS_DIR/task-a/../../tasks.json], a path that
    resolves to the parent of the status directory. *)
Lemma status_file_outside_directory :
  let p := status_file env_dotdot (PStr "a/../../tasks") in
  In (CallExists p) (fst (do_GET "/api/status" env_dotdot)) /\
  resolved p = ["tmp"; "kanban-dashboard"; "tasks.json"] /\
  resolved STATUS_DIR = ["tmp"; "kanban-dashboard"; "status"] /\
  lies_inside STATUS_DIR p = false.
Proof.
  cbv zeta. repeat split; try (vm_compute; reflexivity).
  vm_compute. right. left. reflexivity.
Qed.

(** C6, amended.  For every task record with an [id], the loop body
    consults one path only, first with [os.path.exists]: the path
    [STATUS_DIR/task-<id>.json], where [<id>] is the id as [str] formats
    it.  Unless that text has a slash in it, the path lies inside the
    status directory. *)
Theorem status_file_consulted (e : Env) (task id : pyval) :
  py_getitem task "id" = Ok id ->
  let p := STATUS_DIR ++ "/task-" ++ py_str (py_repr e) id ++ ".json" in
  (exists rest, fst (merge_status task e) = CallExists p :: rest) /\
  Forall (fun c => call_path c = p) (fst (merge_status task e)) /\
  (has_slash (py_str (py_repr e) id) = true \/ lies_inside STATUS_DIR p = true).
Proof.
  intros Hid p. rewrite (merge_status_run e task id Hid).
  rewrite status_file_eq. fold p. cbv zeta.
  split; [|split].
  - destruct (overlay_of e p); simpl; eauto.
  - destruct (overlay_of e p); simpl; repeat constructor.
  - destruct (has_slash (py_str (py_repr e) id)) eqn:H; [left; reflexivity|].
    right. apply plain_name_inside. assumption.
Qed.

Lemma status_file_consulted_witness :
  let p := STATUS_DIR ++ "/task-" ++ "1" ++ ".json" in
  (exists rest,
      fst (merge_status (PDict [(PStr "id", PInt 1); (PStr "title", PStr "A")])
             env_done)
      = CallExists p :: rest) /\
  Forall (fun c => call_path c = p)
    (fst (merge_status (PDict [(PStr "id", PInt 1); (PStr "title", PStr "A")])
            env_done)) /\
  (has_slash "1" = true \/ lies_inside STATUS_DIR p = true).
Proof.
  apply (status_file_consulted env_done
           (PDict [(PStr "id", PInt 1); (PStr "title", PStr "A")]) (PInt 1)).
  reflexivity.
Defined.

(** ** Claims about the log endpoint *)

Section Log.

Lemma last_n_length {A : Type} (n : nat) (l : list A) :
  List.length (last_n n l) = Nat.min n (List.length l).
Proof. unfold last_n. rewrite length_skipn. lia. Qed.

Lemma last_n_suffix {A : Type} (n : nat) (l : list A) :
  l = (firstn (List.length l - n) l ++ last_n n l)%list.
Proof. unfold last_n. symmetry. apply firstn_skipn. Qed.

Lemma kept_lines_length (text : string) : List.length (kept_lines text) <= 50.
Proof.
  unfold kept_lines.
  eapply Nat.le_trans; [apply filter_length_le|].
  rewrite length_map, last_n_length. lia.
Qed.

Lemma kept_lines_not_blank (text : string) :
  Forall (fun line => line <> EmptyString) (kept_lines text).
Proof.
  unfold kept_lines. apply Forall_forall. intros x Hx.
  apply filter_In in Hx as [_ Hx]. destruct x; [discriminate|congruence].
Qed.

(** The log endpoint on a log that can be read: the entries of the
    kept lines go to [send_json]. *)
Lemma log_run (e : Env) (text : string) :
  fs_exists e LOG_FILE = true ->
  fs_read e LOG_FILE = Some text ->
  do_GET "/api/log" e
  = ([CallExists LOG_FILE; CallOpen LOG_FILE],
     match respond e (entries_body (map (entry_of e) (kept_lines text))) with
     | Ok r => Ok (Api r)
     | Raise x => Raise x
     end).
Proof.
  intros Hex Hrd. rewrite do_GET_log, send_log_run, Hex, Hrd.
  destruct (respond e _); reflexivity.
Qed.

(** Every response of the log endpoint on such a log. *)
Lemma log_response (e : Env) (text : string) (t : list fs_call)
      (r : response) :
  fs_exists e LOG_FILE = true ->
  fs_read e LOG_FILE = Some text ->
  do_GET "/api/log" e = (t, Ok (Api r)) ->
  r = json_response (entries_body (map (entry_of e) (kept_lines text))).
Proof.
  intros Hex Hrd H. rewrite (log_run e text Hex Hrd) in H.
  destruct (respond e _) as [r0|x] eqn:Hr0; [|discriminate].
  apply respond_inv in Hr0 as [Hr0 _]. inversion H. subst. reflexivity.
Qed.

End Log.

(** C7.  For every content of the activity log, a response of GET
    /api/log has at most 50 entries: one for each line, among the last
    50 lines of the file, that is not empty once trimmed, in the order
    of the file.  A line that is empty once trimmed yields none. *)
Theorem log_window (e : Env) (text : string) (t : list fs_call)
        (r : response) :
  fs_exists e LOG_FILE = true ->
  fs_read e LOG_FILE = Some text ->
  do_GET "/api/log" e = (t, Ok (Api r)) ->
  exists entries older window,
    emitted_entries r = Some entries /\
    List.length entries <= 50 /\
    readlines text = (older ++ window)%list /\
    List.length window = Nat.min 50 (List.length (readlines text)) /\
    entries = map (entry_of e) (filter str_truthy (map strip window)) /\
    List.length entries
    = List.length (filter (fun l => str_truthy (strip l)) window).
Proof.
  intros Hex Hrd Hget.
  rewrite (log_response e text t r Hex Hrd Hget).
  exists (map (entry_of e) (kept_lines text)).
  exists (firstn (List.length (readlines text) - 50) (readlines text)).
  exists (last_n 50 (readlines text)).
  split; [|split; [|split; [|split; [|split]]]].
  - reflexivity.
  - rewrite length_map. apply kept_lines_length.
  - apply last_n_suffix.
  - apply last_n_length.
  - reflexivity.
  - rewrite length_map. unfold kept_lines.
    generalize (last_n 50 (readlines text)) as w.
    induction w as [|l w IH]; simpl; [reflexivity|].
    destruct (str_truthy (strip l)); simpl; rewrite IH; reflexivity.
Qed.

Lemma log_window_witness :
  exists entries older window,
    emitted_entries
      (json_response
         (entries_body
            [PDict [(PStr "time", PStr "t1"); (PStr "msg", PStr "x")];
             PDict [(PStr "message", PStr "not json");
                    (PStr "time", PStr EmptyString)];
             PInt 42]))
    = Some entries /\
    List.length entries <= 50 /\
    readlines log_text = (older ++ window)%list /\
    List.length window = Nat.min 50 (List.length (readlines log_text)) /\
    entries = map (entry_of env_log) (filter str_truthy (map strip window)) /\
    List.length entries
    = List.length (filter (fun l => str_truthy (strip l)) window).
Proof.
  apply (log_window env_log log_text
           [CallExists LOG_FILE; CallOpen LOG_FILE]); reflexivity.
Defined.



(** C10.  A line of the window that is not blank and parses as JSON to
    a value that is not an object has that very value among the
    entries of the response, so the entries of a response need not all
    be objects. *)
Theorem log_entry_not_object (e : Env) (text : string) (line : string)
        (v : pyval) (t : list fs_call) (r : response) :
  fs_exists e LOG_FILE = true ->
  fs_read e LOG_FILE = Some text ->
  In line (last_n 50 (readlines text)) ->
  str_truthy (strip line) = true ->
  json_loads e (strip line) = Some v ->
  is_dict v = false ->
  do_GET "/api/log" e = (t, Ok (Api r)) ->
  exists entries,
    emitted_entries r = Some entries /\
    In v entries /\
    forallb is_dict entries = false.
Proof.
  intros Hex Hrd Hin Hne Hv Hnd Hget.
  rewrite (log_response e text t r Hex Hrd Hget).
  eexists. split; [reflexivity|].
  assert (Hent : In v (map (entry_of e) (kept_lines text))).
  { apply in_map_iff. exists (strip line). split.
    - unfold entry_of. rewrite Hv. reflexivity.
    - unfold kept_lines. apply filter_In. split; [|assumption].
      apply in_map. assumption. }
  split; [assumption|].
  destruct (forallb is_dict (map (entry_of e) (kept_lines text))) eqn:Hall;
    [|reflexivity].
  rewrite forallb_forall in Hall. rewrite (Hall v Hent) in Hnd. discriminate.
Qed.

Lemma log_entry_not_object_witness :
  exists entries,
    emitted_entries
      (json_response
         (entries_body
            [PDict [(PStr "time", PStr "t1"); (PStr "msg", PStr "x")];
             PDict [(PStr "message", PStr "not json");
                    (PStr "time", PStr EmptyString)];
             PInt 42]))
    = Some entries /\
    In (PInt 42) entries /\
    forallb is_dict entries = false.
Proof.
  apply (log_entry_not_object env_log log_text ("42" ++ nl) (PInt 42)
           [CallExists LOG_FILE; CallOpen LOG_FILE]);
    try reflexivity.
  vm_compute. do 3 right. left. reflexivity.
Defined.

(** C9.  Every response that GET /api/status or GET /api/log writes,
    the error body and the empty list of entries included, has status
    200 and the headers Content-Type: application/json,
    Access-Control-Allow-Origin: * and Cache-Control: no-cache. *)
Theorem api_response_shape (e : Env) (path : string) (t : list fs_call)
        (r : response) :
  path = "/api/status" \/ path = "/api/log" ->
  do_GET path e = (t, Ok (Api r)) ->
  status_code r = 200%Z /\
  In ("Content-Type", "application/json") (headers r) /\
  In ("Access-Control-Allow-Origin", "*") (headers r) /\
  In ("Cache-Control", "no-cache") (headers r).
Proof.
  assert (Hshape : forall data,
             status_code (json_response data) = 200%Z /\
             In ("Content-Type", "application/json")
                (headers (json_response data)) /\
             In ("Access-Control-Allow-Origin", "*")
                (headers (json_response data)) /\
             In ("Cache-Control", "no-cache") (headers (json_response data))).
  { intro data. simpl. intuition. }
  intros [Hp | Hp] H; subst path.
  - rewrite do_GET_status, send_status_run in H.
    destruct (fs_read e tasks_file) as [s|];
      [|inversion H; apply Hshape].
    destruct (json_loads e s) as [data|]; [|inversion H; apply Hshape].
    destruct (py_getitem data "tasks") as [tasks|x]; [|discriminate].
    destruct (for_tasks tasks e) as [t1 [tasks'|x]]; [|discriminate].
    destruct data; try discriminate.
    destruct (respond e _) as [r0|x] eqn:Hr0; [|discriminate].
    apply respond_inv in Hr0 as [Hr0 _]. inversion H. subst. apply Hshape.
  - rewrite do_GET_log, send_log_run in H.
    destruct (fs_exists e LOG_FILE); [|inversion H; apply Hshape].
    destruct (fs_read e LOG_FILE); [|inversion H; apply Hshape].
    destruct (respond e _) as [r0|x] eqn:Hr0; [|discriminate].
    apply respond_inv in Hr0 as [Hr0 _]. inversion H. subst. apply Hshape.
Qed.

Lemma api_response_shape_witness :
  status_code (json_response error_body) = 200%Z /\
  In ("Content-Type", "application/json") (headers (json_response error_body)) /\
  In ("Access-Control-Allow-Origin", "*") (headers (json_response error_body)) /\
  In ("Cache-Control", "no-cache") (headers (json_response error_body)).
Proof.
  apply (api_response_shape env_no_tasks "/api/status" [CallOpen tasks_file]).
  - left. reflexivity.
  - reflexivity.
Defined.

(** ** Further properties of the status endpoint *)

Section StatusMore.

Variable e : Env.

Lemma dict_has_get (d : dict) (k : pyval) :
  dict_has d k = match dict_get d k with Some _ => true | None => false end.
Proof.
  induction d as [|[k0 v0] d IH]; simpl; [reflexivity|].
  destruct (key_eqb k0 k); simpl; [reflexivity|apply IH].
Qed.

Lemma dict_set_keys (d : dict) (k v : pyval) :
  keys (dict_set d k v) = if dict_has d k then keys d else (keys d ++ [k])%list.
Proof.
  unfold keys. induction d as [|[k0 v0] d IH]; simpl; [reflexivity|].
  destruct (key_eqb k0 k); simpl; [reflexivity|].
  rewrite IH. destruct (dict_has d k); reflexivity.
Qed.

Lemma dict_has_set (d : dict) (k v k' : pyval) :
  dict_has (dict_set d k v) k' = key_eqb k k' || dict_has d k'.
Proof.
  rewrite !dict_has_get, dict_get_set.
  destruct (key_eqb k k'); reflexivity.
Qed.

(** Storing the value a key already has changes nothing. *)
Lemma dict_set_same (d : dict) (k v : pyval) :
  dict_get d k = Some v -> dict_set d k v = d.
Proof.
  induction d as [|[k0 v0] d IH]; simpl; [discriminate|].
  destruct (key_eqb k0 k); intro H.
  - inversion H. reflexivity.
  - rewrite (IH H). reflexivity.
Qed.

Lemma depth_dict_set (d : dict) (k v : pyval) :
  depth (PDict (dict_set d k v)) <= Nat.max (depth (PDict d)) (S (depth v)).
Proof.
  simpl. apply le_n_S.
  induction d as [|[k0 v0] d IH]; simpl.
  - lia.
  - destruct (key_eqb k0 k); simpl; lia.
Qed.

(** A loaded document with [server_time] set is no deeper than the
    document, so [json.dumps] takes it. *)
Lemma respond_with_time (s : string) (d : dict) (now : string) :
  json_loads e s = Some (PDict d) ->
  respond e (PDict (dict_set d (PStr "server_time") (PStr now)))
  = Ok (json_response (PDict (dict_set d (PStr "server_time") (PStr now)))).
Proof.
  intro H. unfold respond.
  pose proof (loads_bounded e s _ H) as Hb.
  pose proof (depth_dict_set d (PStr "server_time") (PStr now)) as Hd.
  assert (Hpos : 1 <= depth (PDict d)) by (simpl; lia).
  change (depth (PStr now)) with 0 in Hd.
  rewrite (proj2 (Nat.leb_le _ _)); [reflexivity|lia].
Qed.

(** Every response of the status endpoint to a parsed document. *)
Lemma status_ok_inv (s : string) (data : pyval) (t : list fs_call)
      (r : response) :
  fs_read e tasks_file = Some s ->
  json_loads e s = Some data ->
  do_GET "/api/status" e = (t, Ok (Api r)) ->
  exists d tasks tasks' t1,
    data = PDict d /\
    dict_get d (PStr "tasks") = Some tasks /\
    for_tasks tasks e = (t1, Ok tasks') /\
    t = CallOpen tasks_file :: t1 /\
    r = json_response
          (PDict (dict_set (dict_set d (PStr "tasks") tasks')
                    (PStr "server_time") (PStr (now_iso e)))).
Proof.
  intros Hs Hd H. rewrite do_GET_status, send_status_run, Hs, Hd in H.
  destruct (py_getitem data "tasks") as [tasks|x] eqn:Ht; [|discriminate].
  destruct (for_tasks tasks e) as [t1 [tasks'|x]] eqn:Hloop; [|discriminate].
  destruct data as [| | | | | |d]; try discriminate.
  destruct (respond e _) as [r0|x] eqn:Hr0 in H; [|discriminate].
  apply respond_inv in Hr0 as [Hr0 _].
  exists d, tasks, tasks', t1. unfold py_getitem in Ht.
  destruct (dict_get d (PStr "tasks")) as [v|] eqn:Hg; inversion Ht; subst.
  inversion H. repeat split; auto.
Qed.

Lemma merge_status_calls (task : pyval) :
  fst (merge_status task e) = status_calls e task.
Proof.
  unfold status_calls. destruct (py_getitem task "id") as [id|x] eqn:Hid.
  - rewrite (merge_status_run e task id Hid). cbv zeta. unfold overlay_of.
    destruct (fs_exists e (status_file e id)); [|reflexivity].
    destruct (fs_read e (status_file e id)) as [s|]; [|reflexivity].
    destruct (json_loads e s); reflexivity.
  - rewrite (merge_status_raises e task x Hid). reflexivity.
Qed.

(** The loop over task records: the calls of each round, in order. *)
Lemma for_each_records (ts : list pyval) :
  forallb is_task ts = true ->
  exists ts',
    for_each merge_status ts e = (flat_map (status_calls e) ts, Ok ts').
Proof.
  induction ts as [|x xs IH]; simpl; intro H.
  - exists []. reflexivity.
  - apply andb_true_iff in H as [Hx Hxs]. destruct (IH Hxs) as [ys Hys].
    destruct (merge_status_total e x Hx) as (tx & y & Hrun).
    pose proof (merge_status_calls x) as Hc. rewrite Hrun in Hc. simpl in Hc.
    subst tx. exists (y :: ys). unfold bind, ret. rewrite Hrun, Hys.
    rewrite app_nil_r. reflexivity.
Qed.

(** The loop over task records leaves each record merged. *)
Lemma for_each_merged (ts : list pyval) :
  forallb is_task ts = true ->
  for_each merge_status ts e
  = (flat_map (status_calls e) ts, Ok (map (merged e) ts)).
Proof.
  induction ts as [|x xs IH]; simpl; intro H; [reflexivity|].
  apply andb_true_iff in H as [Hx Hxs].
  destruct (merge_status_total e x Hx) as (tx & y & Hrun).
  pose proof (merge_status_calls x) as Hc. rewrite Hrun in Hc. simpl in Hc.
  subst tx. unfold is_task in Hx.
  destruct (py_getitem x "id") as [id|] eqn:Hid; [|discriminate].
  rewrite (merge_status_value e x id y _ Hid Hrun) in Hrun.
  unfold bind, ret. rewrite Hrun, (IH Hxs), app_nil_r.
  unfold merged at 2. rewrite Hid. reflexivity.
Qed.

(** A valid document goes through the loop and on to [send_json]. *)
Lemma status_records_run (s : string) (d : dict) (ts : list pyval) :
  fs_read e tasks_file = Some s ->
  json_loads e s = Some (PDict d) ->
  dict_get d (PStr "tasks") = Some (PList ts) ->
  forallb is_task ts = true ->
  do_GET "/api/status" e
  = (CallOpen tasks_file :: flat_map (status_calls e) ts,
     api_outcome e (status_body e d ts)).
Proof.
  intros Hs Hd Ht Hall.
  rewrite do_GET_status, send_status_run, Hs, Hd. unfold py_getitem.
  rewrite Ht. unfold for_tasks, bind, ret.
  rewrite (for_each_merged ts Hall), app_nil_r.
  unfold api_outcome, status_body. destruct (respond e _); reflexivity.
Qed.

(** The loop stops at the first element that is no task record. *)
Lemma for_each_first_fault (good : list pyval) (bad : pyval)
      (rest : list pyval) (x : exn) :
  forallb is_task good = true ->
  py_getitem bad "id" = Raise x ->
  for_each merge_status (good ++ bad :: rest) e
  = (flat_map (status_calls e) good, Raise x).
Proof.
  intros Hgood Hbad. induction good as [|g good IH]; simpl.
  - unfold bind. rewrite (merge_status_raises e bad x Hbad). reflexivity.
  - simpl in Hgood. apply andb_true_iff in Hgood as [Hg Hgood].
    destruct (merge_status_total e g Hg) as (tg & y & Hrun).
    pose proof (merge_status_calls g) as Hc. rewrite Hrun in Hc. simpl in Hc.
    subst tg. unfold bind. rewrite Hrun. cbv beta. rewrite (IH Hgood).
    reflexivity.
Qed.

End StatusMore.

(** X1.  When [tasks] is a list, GET /api/status answers exactly when
    every element of the list is an object with an [id] and the merged
    document is nested no deeper than [json.dumps] can walk; the body
    of the response is then that merged document with [server_time]
    set. *)
Theorem status_answers_iff_records (e : Env) (s : string) (d : dict)
        (ts : list pyval) :
  fs_read e tasks_file = Some s ->
  json_loads e s = Some (PDict d) ->
  dict_get d (PStr "tasks") = Some (PList ts) ->
  ((exists t r, do_GET "/api/status" e = (t, Ok (Api r)))
   <-> forallb is_task ts = true /\
       depth (status_body e d ts) <= recursion_limit e) /\
  (forall t r, do_GET "/api/status" e = (t, Ok (Api r)) ->
               r = json_response (status_body e d ts)).
Proof.
  intros Hs Hd Ht.
  assert (Hrec : forall t r, do_GET "/api/status" e = (t, Ok (Api r)) ->
                             forallb is_task ts = true).
  { intros t r H.
    assert (Hg : py_getitem (PDict d) "tasks" = Ok (PList ts))
      by (unfold py_getitem; rewrite Ht; reflexivity).
    destruct (status_emits e s _ ts t r Hs Hd Hg H) as (_ & ts' & _ & _ & Hall).
    apply forallb_forall. intros x Hx.
    apply In_nth_error in Hx as [i Hi].
    destruct (Forall2_nth_error _ _ _ _ _ Hall Hi) as (y & _ & tr & Hrun).
    unfold is_task. destruct (py_getitem x "id") as [id|ex] eqn:Hid;
      [reflexivity|].
    rewrite (merge_status_raises e x ex Hid) in Hrun. discriminate. }
  assert (Hresp : forall t r, do_GET "/api/status" e = (t, Ok (Api r)) ->
                              respond e (status_body e d ts) = Ok r).
  { intros t r H. pose proof (Hrec t r H) as Hall.
    rewrite (status_records_run e s d ts Hs Hd Ht Hall) in H.
    unfold api_outcome in H.
    destruct (respond e (status_body e d ts)); inversion H. reflexivity. }
  split; [split|].
  - intros (t & r & H). split; [apply (Hrec t r H)|].
    apply (respond_inv e _ r). apply (Hresp t r H).
  - intros [Hall Hdepth].
    rewrite (status_records_run e s d ts Hs Hd Ht Hall).
    unfold api_outcome, respond.
    rewrite (proj2 (Nat.leb_le _ _) Hdepth). eauto.
  - intros t r H. apply (respond_inv e _ r). apply (Hresp t r H).
Qed.

Lemma status_answers_iff_records_witness :
  ((exists t r, do_GET "/api/status" env_done = (t, Ok (Api r)))
   <-> forallb is_task
         [PDict [(PStr "id", PInt 1); (PStr "title", PStr "A")]] = true /\
       depth (status_body env_done
                [(PStr "tasks",
                  PList [PDict [(PStr "id", PInt 1);
                                (PStr "title", PStr "A")]])]
                [PDict [(PStr "id", PInt 1); (PStr "title", PStr "A")]])
       <= recursion_limit env_done) /\
  (forall t r,
      do_GET "/api/status" env_done = (t, Ok (Api r)) ->
      r = json_response
            (status_body env_done
               [(PStr "tasks",
                 PList [PDict [(PStr "id", PInt 1);
                               (PStr "title", PStr "A")]])]
               [PDict [(PStr "id", PInt 1); (PStr "title", PStr "A")]])).
Proof.
  apply (status_answers_iff_records env_done tasks_doc
           [(PStr "tasks",
             PList [PDict [(PStr "id", PInt 1); (PStr "title", PStr "A")]])]);
    vm_compute; reflexivity.
Defined.

(** X2.  When the list has an element that is no task record, the
    request ends in the exception of the first such element
    ([KeyError] for an object without [id], [TypeError] otherwise),
    after consulting the status files of the records before it, in
    order, and of no later one. *)
Theorem status_first_fault (e : Env) (s : string) (d : dict)
        (good : list pyval) (bad : pyval) (rest : list pyval) (x : exn) :
  fs_read e tasks_file = Some s ->
  json_loads e s = Some (PDict d) ->
  dict_get d (PStr "tasks") = Some (PList (good ++ bad :: rest)) ->
  forallb is_task good = true ->
  py_getitem bad "id" = Raise x ->
  do_GET "/api/status" e
  = (CallOpen tasks_file :: flat_map (status_calls e) good, Raise x) /\
  x = (if is_dict bad then KeyError (PStr "id") else TypeError).
Proof.
  intros Hs Hd Ht Hgood Hbad. split.
  - rewrite do_GET_status, send_status_run, Hs, Hd. unfold py_getitem at 1.
    rewrite Ht. unfold for_tasks, bind.
    rewrite (for_each_first_fault e good bad rest x Hgood Hbad). reflexivity.
  - unfold py_getitem in Hbad. destruct bad; simpl; try congruence.
    destruct (dict_get d0 (PStr "id")); congruence.
Qed.

Lemma status_first_fault_witness :
  do_GET "/api/status" env_second_bad
  = (CallOpen tasks_file
       :: flat_map (status_calls env_second_bad) [PDict [(PStr "id", PInt 1)]],
     Raise (KeyError (PStr "id"))) /\
  KeyError (PStr "id")
  = (if is_dict (PDict [(PStr "title", PStr "B")])
     then KeyError (PStr "id") else TypeError).
Proof.
  apply (status_first_fault env_second_bad
           ("{" ++ js "tasks" ++ ":[{" ++ js "id" ++ ":1},{"
            ++ js "title" ++ ":" ++ js "B" ++ "}]}")
           [(PStr "tasks",
             PList [PDict [(PStr "id", PInt 1)];
                    PDict [(PStr "title", PStr "B")]])]
           [PDict [(PStr "id", PInt 1)]] (PDict [(PStr "title", PStr "B")]) []);
    vm_compute; reflexivity.
Defined.

(** X3.  A parsed document that gives no [tasks] ends the request
    before any status file is consulted: in [TypeError] when the
    document is not an object, in [KeyError] when it is an object
    without the field. *)
Theorem status_fault_before_loop (e : Env) (s : string) (data : pyval)
        (x : exn) :
  fs_read e tasks_file = Some s ->
  json_loads e s = Some data ->
  py_getitem data "tasks" = Raise x ->
  do_GET "/api/status" e = ([CallOpen tasks_file], Raise x) /\
  x = (if is_dict data then KeyError (PStr "tasks") else TypeError).
Proof.
  intros Hs Hd Ht. split.
  - rewrite do_GET_status, send_status_run, Hs, Hd, Ht. reflexivity.
  - unfold py_getitem in Ht. destruct data; simpl; try congruence.
    destruct (dict_get d (PStr "tasks")); congruence.
Qed.

Lemma status_fault_before_loop_witness :
  do_GET "/api/status" env_array_document
  = ([CallOpen tasks_file], Raise TypeError) /\
  TypeError
  = (if is_dict (PList [PInt 1; PInt 2])
     then KeyError (PStr "tasks") else TypeError).
Proof.
  apply (status_fault_before_loop env_array_document "[1,2]"
           (PList [PInt 1; PInt 2]) TypeError); reflexivity.
Defined.

(** X4.  When [tasks] is not a list, the request answers only if
    there is nothing to iterate over (an empty object, an empty
    string), and then with the document and [server_time]; a number, a
    boolean, null, and an object or a string that is not empty end it
    in [TypeError]. *)
Theorem status_tasks_not_list (e : Env) (s : string) (d : dict)
        (tasks : pyval) :
  fs_read e tasks_file = Some s ->
  json_loads e s = Some (PDict d) ->
  dict_get d (PStr "tasks") = Some tasks ->
  is_list tasks = false ->
  hashable_keys tasks = true ->
  do_GET "/api/status" e
  = match py_iter tasks with
    | Some [] =>
        ([CallOpen tasks_file],
         Ok (Api (json_response
                    (PDict (dict_set d (PStr "server_time")
                              (PStr (now_iso e)))))))
    | _ => ([CallOpen tasks_file], Raise TypeError)
    end.
Proof.
  intros Hs Hd Ht Hl Hk.
  rewrite do_GET_status, send_status_run, Hs, Hd. unfold py_getitem at 1.
  rewrite Ht.
  assert (Hstr : forall c r, for_each merge_status (chars (String c r)) e
                             = ([], Raise TypeError)).
  { intros c r. simpl. unfold bind.
    rewrite (merge_status_raises e (PStr (String c EmptyString)) TypeError
               eq_refl).
    reflexivity. }
  destruct tasks as [| | | |str|l|kvs]; try discriminate Hl;
    try reflexivity.
  - destruct str as [|c r].
    + cbn -[respond]. rewrite (dict_set_same d _ _ Ht).
      rewrite (respond_with_time e s d _ Hd). reflexivity.
    + unfold for_tasks, py_iter, bind. rewrite Hstr. reflexivity.
  - destruct kvs as [|[k v] kvs].
    + cbn -[respond]. rewrite (dict_set_same d _ _ Ht).
      rewrite (respond_with_time e s d _ Hd). reflexivity.
    + simpl in Hk. apply andb_true_iff in Hk as [Hk _].
      unfold for_tasks, py_iter, bind. simpl map. simpl for_each.
      unfold bind.
      assert (Hit : py_getitem k "id" = Raise TypeError)
        by (destruct k; try reflexivity; discriminate Hk).
      rewrite (merge_status_raises e k TypeError Hit). reflexivity.
Qed.

Lemma status_tasks_not_list_witness :
  do_GET "/api/status" env_tasks_empty_object
  = match py_iter (PDict []) with
    | Some [] =>
        ([CallOpen tasks_file],
         Ok (Api (json_response
                    (PDict (dict_set [(PStr "tasks", PDict [])]
                              (PStr "server_time")
                              (PStr (now_iso env_tasks_empty_object)))))))
    | _ => ([CallOpen tasks_file], Raise TypeError)
    end.
Proof.
  apply (status_tasks_not_list env_tasks_empty_object
           ("{" ++ js "tasks" ++ ":{}}") [(PStr "tasks", PDict [])] (PDict []));
    vm_compute; reflexivity.
Defined.

(** X5.  For a task-list document whose [tasks] is a list of records,
    the request opens [tasks.json] first and once, then goes through
    the records in list order: one [exists] on the status file of each,
    followed by one [open] of that same file exactly when it exists. *)
Theorem status_call_order (e : Env) (s : string) (d : dict)
        (ts : list pyval) :
  fs_read e tasks_file = Some s ->
  json_loads e s = Some (PDict d) ->
  dict_get d (PStr "tasks") = Some (PList ts) ->
  forallb is_task ts = true ->
  fst (do_GET "/api/status" e)
  = CallOpen tasks_file :: flat_map (status_calls e) ts.
Proof.
  intros Hs Hd Ht Hall.
  rewrite (status_records_run e s d ts Hs Hd Ht Hall). reflexivity.
Qed.

Lemma status_call_order_witness :
  fst (do_GET "/api/status" env_done)
  = CallOpen tasks_file
      :: flat_map (status_calls env_done)
           [PDict [(PStr "id", PInt 1); (PStr "title", PStr "A")]].
Proof.
  apply (status_call_order env_done tasks_doc
           [(PStr "tasks",
             PList [PDict [(PStr "id", PInt 1); (PStr "title", PStr "A")]])]);
    vm_compute; reflexivity.
Defined.

(** X6.  The body of every response to a parsed document has the
    top-level keys of the document, in the order of the document;
    [server_time] keeps its place when the document has the key and
    comes last when it has not. *)
Theorem status_body_key_order (e : Env) (s : string) (data : pyval)
        (t : list fs_call) (r : response) :
  fs_read e tasks_file = Some s ->
  json_loads e s = Some data ->
  do_GET "/api/status" e = (t, Ok (Api r)) ->
  exists d b,
    data = PDict d /\ body r = PDict b /\
    keys b = if dict_has d (PStr "server_time") then keys d
             else (keys d ++ [PStr "server_time"])%list.
Proof.
  intros Hs Hd H.
  destruct (status_ok_inv e s data t r Hs Hd H)
    as (d & tasks & tasks' & t1 & Hdata & Ht & _ & _ & Hr).
  exists d, (dict_set (dict_set d (PStr "tasks") tasks')
               (PStr "server_time") (PStr (now_iso e))).
  split; [assumption|]. split; [rewrite Hr; reflexivity|].
  rewrite dict_set_keys, dict_has_set, dict_set_keys.
  rewrite (dict_has_get d (PStr "tasks")), Ht. reflexivity.
Qed.

Lemma status_body_key_order_witness :
  exists d b,
    PDict [(PStr "tasks",
            PList [PDict [(PStr "id", PInt 1); (PStr "title", PStr "A")]])]
    = PDict d /\
    body (json_response
            (PDict [(PStr "tasks",
                     PList [PDict [(PStr "id", PInt 1);
                                   (PStr "title", PStr "A")]]);
                    (PStr "server_time", PStr (now_iso env_plain))]))
    = PDict b /\
    keys b = if dict_has d (PStr "server_time") then keys d
             else (keys d ++ [PStr "server_time"])%list.
Proof.
  apply (status_body_key_order env_plain tasks_doc _
           [CallOpen tasks_file; CallExists status_1]);
    vm_compute; reflexivity.
Defined.

Section MergeMore.

Lemma filter_ext_in_keys (f g : pyval -> bool) (l : list pyval) :
  (forall k, In k l -> f k = g k) -> filter f l = filter g l.
Proof.
  induction l as [|a l IH]; simpl; intro H; [reflexivity|].
  rewrite (H a (or_introl eq_refl)), IH; [reflexivity|].
  intros k Hk. apply H. right. assumption.
Qed.

Lemma key_eqb_false_in (other : dict) (k0 k : pyval) :
  existsb (fun kv => key_eqb k0 (fst kv)) other = false ->
  In k (keys other) -> key_eqb k0 k = false.
Proof.
  unfold keys. induction other as [|[k1 v1] other IH]; simpl; intros H Hin.
  - contradiction.
  - apply orb_false_iff in H as [H1 H2]. destruct Hin as [<-|Hin]; auto.
Qed.

(** The keys after [update] with a dict: the keys the dict had, in
    their order, then the new keys in the order of the argument. *)
Lemma dict_merge_keys (other d : dict) :
  dict_wf other = true ->
  keys (dict_merge d other)
  = (keys d ++ filter (fun k => negb (dict_has d k)) (keys other))%list.
Proof.
  unfold dict_merge. revert d.
  induction other as [|[k0 v0] other IH]; simpl; intros d Hwf.
  - rewrite app_nil_r. reflexivity.
  - apply andb_true_iff in Hwf as [Hwf Hrest].
    apply andb_true_iff in Hwf as [_ Hfresh]. apply negb_true_iff in Hfresh.
    rewrite (IH _ Hrest), dict_set_keys.
    assert (Hf : filter (fun k => negb (dict_has (dict_set d k0 v0) k))
                   (keys other)
                 = filter (fun k => negb (dict_has d k)) (keys other)).
    { apply filter_ext_in_keys. intros k Hk. rewrite dict_has_set.
      rewrite (key_eqb_false_in other k0 k Hfresh Hk). reflexivity. }
    rewrite Hf. destruct (dict_has d k0); simpl; [reflexivity|].
    rewrite <- app_assoc. reflexivity.
Qed.

(** [update] with an array stores its leading pairs and no more. *)
Lemma merge_seq2_leading (items : list pyval) (d : dict) :
  fst (merge_seq2 d items) = dict_merge d (leading_pairs items).
Proof.
  revert d. induction items as [|item rest IH]; intro d; simpl.
  - reflexivity.
  - unfold as_pair. destruct (py_iter item) as [[|k [|v [|w l]]]|];
      try reflexivity.
    destruct (hashable k); [|reflexivity].
    rewrite IH. reflexivity.
Qed.

Lemma merge_seq2_raises (items : list pyval) (d : dict) :
  snd (merge_seq2 d items) = None
  <-> List.length (leading_pairs items) = List.length items.
Proof.
  revert d. induction items as [|item rest IH]; intro d; simpl.
  - tauto.
  - unfold as_pair. destruct (py_iter item) as [[|k [|v [|w l]]]|];
      simpl; try (split; [discriminate|intro H; discriminate H]).
    destruct (hashable k); simpl.
    + rewrite IH. split; [intro H; rewrite H; reflexivity|].
      intro H. inversion H. reflexivity.
    + split; [discriminate|intro H; discriminate H].
Qed.

End MergeMore.

(** X7.  The record emitted for a task whose status file parses as a
    JSON object has the keys of the task record first, in their order,
    and then the keys that only the status object has, in the order of
    the status file. *)
Theorem status_merged_key_order (e : Env) (s : string) (data : pyval)
        (ts : list pyval) (t : list fs_call) (r : response) (i : nat)
        (d : dict) (id : pyval) (status : dict) :
  fs_read e tasks_file = Some s ->
  json_loads e s = Some data ->
  py_getitem data "tasks" = Ok (PList ts) ->
  do_GET "/api/status" e = (t, Ok (Api r)) ->
  nth_error ts i = Some (PDict d) ->
  dict_get d (PStr "id") = Some id ->
  overlay_of e (status_file e id) = Parsed (PDict status) ->
  dict_wf status = true ->
  exists ts' m,
    emitted_tasks r = Some ts' /\
    nth_error ts' i = Some (PDict m) /\
    keys m
    = (keys d ++ filter (fun k => negb (dict_has d k)) (keys status))%list.
Proof.
  intros Hs Hd Ht Hget Hi Hid Hov Hwf.
  destruct (status_emits e s data ts t r Hs Hd Ht Hget)
    as (d0 & ts' & _ & Hr & Hall).
  exists ts', (dict_merge d status). split; [|split].
  - rewrite Hr. apply emitted_tasks_response.
  - destruct (Forall2_nth_error _ _ _ _ _ Hall Hi) as (t' & Hi' & tr & Hrun).
    rewrite Hi'. f_equal.
    assert (Hid' : py_getitem (PDict d) "id" = Ok id)
      by (unfold py_getitem; rewrite Hid; reflexivity).
    rewrite (merge_status_value e _ id t' tr Hid' Hrun), Hov. reflexivity.
  - apply dict_merge_keys. assumption.
Qed.

Lemma status_merged_key_order_witness :
  exists ts' m,
    emitted_tasks
      (json_response
         (PDict [(PStr "tasks",
                  PList [PDict [(PStr "id", PInt 1); (PStr "title", PStr "A");
                                (PStr "state", PStr "done")]]);
                 (PStr "server_time", PStr (now_iso env_done))]))
    = Some ts' /\
    nth_error ts' 0 = Some (PDict m) /\
    keys m
    = (keys [(PStr "id", PInt 1); (PStr "title", PStr "A")]
       ++ filter
            (fun k =>
               negb (dict_has [(PStr "id", PInt 1); (PStr "title", PStr "A")] k))
            (keys [(PStr "state", PStr "done")]))%list.
Proof.
  apply (status_merged_key_order env_done tasks_doc
           (PDict [(PStr "tasks",
                    PList [PDict [(PStr "id", PInt 1);
                                  (PStr "title", PStr "A")]])])
           [PDict [(PStr "id", PInt 1); (PStr "title", PStr "A")]]
           [CallOpen tasks_file; CallExists status_1; CallOpen status_1]
           _ 0 _ (PInt 1)); vm_compute; reflexivity.
Defined.

(** X8.  When the status file of a task parses as a JSON array, the
    record emitted in a response is the task record updated with the
    leading elements of the array that are pairs with a hashable first
    component; the first element that is none, and all that follow it,
    leave no trace, and [update] raises exactly when there is such an
    element. *)
Theorem status_array_overlay (e : Env) (s : string) (data : pyval)
        (ts : list pyval) (t : list fs_call) (r : response) (i : nat)
        (d : dict) (id : pyval) (items : list pyval) :
  fs_read e tasks_file = Some s ->
  json_loads e s = Some data ->
  py_getitem data "tasks" = Ok (PList ts) ->
  do_GET "/api/status" e = (t, Ok (Api r)) ->
  nth_error ts i = Some (PDict d) ->
  dict_get d (PStr "id") = Some id ->
  overlay_of e (status_file e id) = Parsed (PList items) ->
  exists ts',
    emitted_tasks r = Some ts' /\
    nth_error ts' i = Some (PDict (dict_merge d (leading_pairs items))) /\
    (snd (py_update (PDict d) (PList items)) = None
     <-> List.length (leading_pairs items) = List.length items).
Proof.
  intros Hs Hd Ht Hget Hi Hid Hov.
  destruct (status_emits e s data ts t r Hs Hd Ht Hget)
    as (d0 & ts' & _ & Hr & Hall).
  exists ts'. split; [|split].
  - rewrite Hr. apply emitted_tasks_response.
  - destruct (Forall2_nth_error _ _ _ _ _ Hall Hi) as (t' & Hi' & tr & Hrun).
    rewrite Hi'. f_equal.
    assert (Hid' : py_getitem (PDict d) "id" = Ok id)
      by (unfold py_getitem; rewrite Hid; reflexivity).
    rewrite (merge_status_value e _ id t' tr Hid' Hrun), Hov.
    unfold py_update, dict_update.
    pose proof (merge_seq2_leading items d) as H.
    destruct (merge_seq2 d items). simpl in *. congruence.
  - unfold py_update, dict_update.
    pose proof (merge_seq2_raises items d) as H.
    destruct (merge_seq2 d items). exact H.
Qed.

Lemma status_array_overlay_witness :
  exists ts',
    emitted_tasks
      (json_response
         (PDict [(PStr "tasks",
                  PList [PDict [(PStr "id", PInt 1); (PStr "title", PStr "A");
                                (PStr "state", PStr "done")]]);
                 (PStr "server_time", PStr (now_iso env_pairs))]))
    = Some ts' /\
    nth_error ts' 0
    = Some (PDict (dict_merge [(PStr "id", PInt 1); (PStr "title", PStr "A")]
                     (leading_pairs
                        [PList [PStr "state"; PStr "done"]; PInt 5]))) /\
    (snd (py_update (PDict [(PStr "id", PInt 1); (PStr "title", PStr "A")])
            (PList [PList [PStr "state"; PStr "done"]; PInt 5])) = None
     <-> List.length (leading_pairs [PList [PStr "state"; PStr "done"]; PInt 5])
         = List.length [PList [PStr "state"; PStr "done"]; PInt 5]).
Proof.
  apply (status_array_overlay env_pairs tasks_doc
           (PDict [(PStr "tasks",
                    PList [PDict [(PStr "id", PInt 1);
                                  (PStr "title", PStr "A")]])])
           [PDict [(PStr "id", PInt 1); (PStr "title", PStr "A")]]
           [CallOpen tasks_file; CallExists status_1; CallOpen status_1]
           _ 0 _ (PInt 1)); vm_compute; reflexivity.
Defined.

Section Frame.

Variables e e' : Env.
Hypothesis Hlib : same_library e e'.

Lemma py_str_same (v : pyval) : py_str (py_repr e') v = py_str (py_repr e) v.
Proof.
  destruct Hlib as (_ & Hrepr & _ & _).
  destruct v; simpl; try reflexivity; symmetry; apply Hrepr.
Qed.

Lemma status_file_same (id : pyval) : status_file e' id = status_file e id.
Proof. unfold status_file. rewrite py_str_same. reflexivity. Qed.

Lemma overlay_same (p : string) :
  same_file e e' p -> overlay_of e' p = overlay_of e p.
Proof.
  intros [Hex Hrd]. destruct Hlib as (Hloads & _ & _ & _).
  unfold overlay_of. rewrite <- Hex, <- Hrd.
  destruct (fs_exists e p); [|reflexivity].
  destruct (fs_read e p) as [s|]; [|reflexivity].
  rewrite <- Hloads. reflexivity.
Qed.

Lemma merge_status_frame (task : pyval) :
  (forall c, In c (fst (merge_status task e)) -> same_file e e' (call_path c)) ->
  merge_status task e' = merge_status task e.
Proof.
  intro H. destruct (py_getitem task "id") as [id|x] eqn:Hid.
  - assert (Hp : same_file e e' (status_file e id)).
    { apply (H (CallExists (status_file e id))).
      rewrite merge_status_calls. unfold status_calls. rewrite Hid. cbv zeta.
      destruct (fs_exists e (status_file e id)); left; reflexivity. }
    rewrite (merge_status_run e' task id Hid), (merge_status_run e task id Hid).
    cbv zeta. rewrite status_file_same, (overlay_same _ Hp). reflexivity.
  - rewrite (merge_status_raises e' task x Hid).
    rewrite (merge_status_raises e task x Hid). reflexivity.
Qed.

Lemma for_each_frame (l : list pyval) :
  (forall c, In c (fst (for_each merge_status l e)) ->
             same_file e e' (call_path c)) ->
  for_each merge_status l e' = for_each merge_status l e.
Proof.
  induction l as [|a l IH]; simpl; intro H; [reflexivity|].
  unfold bind in *.
  destruct (merge_status a e) as [t1 r1] eqn:Ha.
  assert (Ha' : merge_status a e' = (t1, r1)).
  { rewrite <- Ha. apply merge_status_frame. intros c Hc. apply H.
    rewrite Ha in Hc. simpl in Hc. destruct r1 as [y|x]; [|exact Hc].
    destruct (for_each merge_status l e) as [t2 [ys|x]]; simpl;
      apply in_or_app; left; exact Hc. }
  rewrite Ha'. destruct r1 as [y|x]; [|reflexivity].
  rewrite IH; [reflexivity|].
  intros c Hc. apply H.
  destruct (for_each merge_status l e) as [t2 [ys|x]]; simpl in *;
    apply in_or_app; right; rewrite ?app_nil_r; exact Hc.
Qed.

Lemma for_tasks_frame (tasks : pyval) :
  (forall c, In c (fst (for_tasks tasks e)) -> same_file e e' (call_path c)) ->
  for_tasks tasks e' = for_tasks tasks e.
Proof.
  assert (Hgen : forall l (k : list pyval -> M pyval),
             (forall ys, k ys e' = k ys e) ->
             (forall ys, fst (k ys e) = []) ->
             (forall c, In c (fst (bind (for_each merge_status l) k e)) ->
                        same_file e e' (call_path c)) ->
             bind (for_each merge_status l) k e'
             = bind (for_each merge_status l) k e).
  { intros l k Hk Hnil H. unfold bind in *.
    rewrite for_each_frame.
    - destruct (for_each merge_status l e) as [t [ys|x]]; [|reflexivity].
      rewrite Hk. reflexivity.
    - intros c Hc. apply H.
      destruct (for_each merge_status l e) as [t [ys|x]]; simpl in *;
        [|exact Hc].
      specialize (Hnil ys). destruct (k ys e) as [t2 r2]. simpl in *.
      subst t2. rewrite app_nil_r. exact Hc. }
  intro H. destruct tasks as [| | | |s|l|d]; try reflexivity.
  - apply (Hgen (chars s) (fun _ => ret (PStr s))); auto.
  - apply (Hgen l (fun l' => ret (PList l'))); auto.
  - apply (Hgen (map fst d) (fun _ => ret (PDict d))); auto.
Qed.

End Frame.

(** X9.  The outcome of GET /api/status depends on the file system
    only through the files the request consults: in an environment
    with the same library routines and clock that shows the same files
    at the consulted paths, it makes the same calls and gives the same
    response or exception. *)
Theorem status_frame (e e' : Env) :
  same_library e e' ->
  (forall c, In c (fst (do_GET "/api/status" e)) ->
             same_file e e' (call_path c)) ->
  do_GET "/api/status" e' = do_GET "/api/status" e.
Proof.
  intros Hlib H.
  assert (Hfst : forall c, In c (fst (send_status e)) ->
                           same_file e e' (call_path c)).
  { intros c Hc. apply H. rewrite do_GET_status.
    destruct (send_status e) as [t [r|x]]; exact Hc. }
  clear H. rewrite !do_GET_status.
  cut (send_status e' = send_status e); [intro E; rewrite E; reflexivity|].
  rewrite (send_status_run e) in Hfst.
  rewrite (send_status_run e), (send_status_run e').
  assert (Hopen : same_file e e' tasks_file).
  { apply (Hfst (CallOpen tasks_file)).
    repeat match goal with
           | |- context [match ?x with _ => _ end] => destruct x
           end; left; reflexivity. }
  destruct Hopen as [_ Hrd]. rewrite <- Hrd.
  destruct (fs_read e tasks_file) as [s|]; [|reflexivity].
  pose proof Hlib as (Hloads & Hrepr & Hnow & Hlim). rewrite <- Hloads.
  destruct (json_loads e s) as [data|]; [|reflexivity].
  destruct (py_getitem data "tasks") as [tasks|x]; [|reflexivity].
  unfold respond.
  rewrite (for_tasks_frame e e' Hlib tasks), <- Hnow, <- Hlim; [reflexivity|].
  intros c Hc. apply Hfst.
  destruct (for_tasks tasks e) as [t1 [tasks'|x]]; simpl in *.
  - destruct data; right; exact Hc.
  - right. exact Hc.
Qed.

Lemma status_frame_witness :
  do_GET "/api/status" env_done_more = do_GET "/api/status" env_done.
Proof.
  apply (status_frame env_done env_done_more).
  - repeat split.
  - vm_compute. intros c [<-|[<-|[<-|[]]]]; split; reflexivity.
Defined.

Section PathsMore.

Lemma append_inj_l (p a b : string) : p ++ a = p ++ b -> a = b.
Proof.
  induction p as [|c p IH]; simpl; intro H; [assumption|].
  injection H as H. apply IH. assumption.
Qed.

Lemma length_append (a b : string) :
  String.length (a ++ b) = String.length a + String.length b.
Proof. induction a as [|c a IH]; simpl; [reflexivity|]. rewrite IH. reflexivity. Qed.

Lemma append_inj_r (c a b : string) : a ++ c = b ++ c -> a = b.
Proof.
  revert b. induction a as [|x a IH]; intros [|y b] H; simpl in H.
  - reflexivity.
  - apply (f_equal String.length) in H. simpl in H.
    rewrite length_append in H. lia.
  - apply (f_equal String.length) in H. simpl in H.
    rewrite length_append in H. lia.
  - injection H as Hxy H. rewrite (IH b H), Hxy. reflexivity.
Qed.

End PathsMore.

(** X10.  Two task ids lead to the same status file exactly when [str]
    formats them to the same text; so the number 1 and the string
    ["1"] share [task-1.json]. *)
Theorem status_file_injective (e : Env) (a b : pyval) :
  (status_file e a = status_file e b
   <-> py_str (py_repr e) a = py_str (py_repr e) b) /\
  status_file e (PInt 1) = status_file e (PStr "1").
Proof.
  split; [|reflexivity]. rewrite !status_file_eq. split.
  - intro H. apply append_inj_l in H. apply append_inj_l in H.
    apply append_inj_r in H. assumption.
  - intro H. rewrite H. reflexivity.
Qed.

(** ** Further properties of the log endpoint *)

Section LogMore.

Lemma lstrip_blank (s : string) : all_space s = true -> lstrip s = EmptyString.
Proof.
  induction s as [|c r IH]; simpl; intro H; [reflexivity|].
  apply andb_true_iff in H as [Hc Hr]. rewrite Hc. apply IH. assumption.
Qed.

Lemma lstrip_all_space (s : string) :
  all_space (lstrip s) = true -> all_space s = true.
Proof.
  induction s as [|c r IH]; simpl; intro H; [reflexivity|].
  destruct (is_space c) eqn:Hc; simpl.
  - apply IH. assumption.
  - simpl in H. rewrite Hc in H. discriminate.
Qed.

Lemma rstrip_blank (s : string) :
  rstrip s = EmptyString -> all_space s = true.
Proof.
  induction s as [|c r IH]; simpl; intro H; [reflexivity|].
  destruct (rstrip r) eqn:Hr; [|discriminate].
  destruct (is_space c); [|discriminate]. simpl. apply IH. reflexivity.
Qed.

(** A line trims to nothing exactly when it is made of whitespace. *)
Lemma strip_blank_iff (s : string) :
  str_truthy (strip s) = false <-> all_space s = true.
Proof.
  unfold strip. split; intro H.
  - apply lstrip_all_space. apply rstrip_blank.
    destruct (rstrip (lstrip s)); [reflexivity|discriminate].
  - rewrite (lstrip_blank s H). reflexivity.
Qed.

Lemma lstrip_first (s : string) :
  lstrip s = EmptyString \/
  exists c r, lstrip s = String c r /\ is_space c = false.
Proof.
  induction s as [|c r IH]; simpl; [left; reflexivity|].
  destruct (is_space c) eqn:Hc; [exact IH|]. right. eauto.
Qed.

Lemma rstrip_last (s : string) :
  rstrip s = EmptyString \/
  exists c, last_char (rstrip s) = Some c /\ is_space c = false.
Proof.
  induction s as [|a r IH]; simpl; [left; reflexivity|].
  destruct (rstrip r) as [|b r'] eqn:Hr.
  - destruct (is_space a) eqn:Ha; [left; reflexivity|].
    right. exists a. split; [reflexivity|assumption].
  - right. destruct IH as [IH|IH]; [discriminate|]. exact IH.
Qed.

Lemma rstrip_first (a : ascii) (r : string) :
  is_space a = false -> exists r', rstrip (String a r) = String a r'.
Proof.
  intro Ha. simpl. destruct (rstrip r); [rewrite Ha|]; eauto.
Qed.

Lemma rstrip_fixed (s : string) (c : ascii) :
  last_char s = Some c -> is_space c = false -> rstrip s = s.
Proof.
  induction s as [|a r IH]; simpl; intros Hl Hc; [reflexivity|].
  destruct r as [|b r'].
  - inversion Hl; subst. simpl. rewrite Hc. reflexivity.
  - rewrite (IH Hl Hc). reflexivity.
Qed.

(** What [strip] returns: nothing, or a text that neither begins nor
    ends with whitespace and that [strip] leaves as it is. *)
Lemma strip_shape (s : string) :
  strip s = EmptyString \/
  (strip (strip s) = strip s /\
   (exists c, first_char (strip s) = Some c /\ is_space c = false) /\
   (exists c, last_char (strip s) = Some c /\ is_space c = false)).
Proof.
  unfold strip.
  destruct (lstrip_first s) as [H|(c & r & H & Hc)]; rewrite H.
  - left. reflexivity.
  - right. destruct (rstrip_first c r Hc) as [r' Hr].
    destruct (rstrip_last (String c r)) as [Hl|(z & Hl & Hz)];
      [rewrite Hr in Hl; discriminate|].
    rewrite Hr in *. split; [|split].
    + simpl lstrip. rewrite Hc. apply (rstrip_fixed _ z Hl Hz).
    + exists c. split; [reflexivity|assumption].
    + exists z. split; assumption.
Qed.

Lemma readlines_cons (c : ascii) (r : string) :
  exists l ls, readlines (String c r) = l :: ls.
Proof.
  simpl. destruct (Ascii.eqb c newline); [eauto|].
  destruct (readlines r); eauto.
Qed.

(** Lines do not reach across the end of a text that ends in a newline. *)
Lemma readlines_app (a b : string) :
  ends_with_newline a = true ->
  readlines (a ++ b) = (readlines a ++ readlines b)%list.
Proof.
  unfold ends_with_newline. induction a as [|c a IH]; simpl; intro H.
  - discriminate.
  - destruct a as [|c' a'].
    + simpl. rewrite H. reflexivity.
    + specialize (IH H). destruct (Ascii.eqb c newline).
      * rewrite IH. reflexivity.
      * rewrite IH. destruct (readlines_cons c' a') as (l & ls & Hl).
        rewrite Hl. reflexivity.
Qed.

Lemma last_n_app {A : Type} (n : nat) (l1 l2 : list A) :
  n <= List.length l2 -> last_n n (l1 ++ l2) = last_n n l2.
Proof.
  intro H. unfold last_n. rewrite length_app, skipn_app.
  rewrite skipn_all2 by lia. simpl. f_equal. lia.
Qed.

Lemma entry_of_same (e e' : Env) (lines : list string) :
  (forall s, json_loads e s = json_loads e' s) ->
  map (entry_of e') lines = map (entry_of e) lines.
Proof.
  intro H. apply map_ext. intro l. unfold entry_of. rewrite H. reflexivity.
Qed.

End LogMore.

(** X11.  When the activity log is absent, or is there but cannot be
    read, GET /api/log answers with an empty list of entries; an absent
    file is never opened. *)
Theorem log_absent_or_unreadable (e : Env) :
  fs_exists e LOG_FILE = false \/ fs_read e LOG_FILE = None ->
  do_GET "/api/log" e
  = ((if fs_exists e LOG_FILE
      then [CallExists LOG_FILE; CallOpen LOG_FILE]
      else [CallExists LOG_FILE]),
     Ok (Api (json_response (PDict [(PStr "entries", PList [])])))).
Proof.
  intro H. rewrite do_GET_log, send_log_run.
  destruct (fs_exists e LOG_FILE); [|reflexivity].
  destruct H as [H|H]; [discriminate|]. rewrite H. reflexivity.
Qed.

Lemma log_absent_or_unreadable_witness :
  do_GET "/api/log" env_log_unreadable
  = ((if fs_exists env_log_unreadable LOG_FILE
      then [CallExists LOG_FILE; CallOpen LOG_FILE]
      else [CallExists LOG_FILE]),
     Ok (Api (json_response (PDict [(PStr "entries", PList [])])))).
Proof.
  apply (log_absent_or_unreadable env_log_unreadable). right. reflexivity.
Defined.

(** X12.  In every environment GET /api/log touches the activity log
    only and hands a list of at most 50 entries to [send_json]: the
    request ends in the response with those entries or, when they are
    nested deeper than [json.dumps] can walk, in [RecursionError].  No
    exception of [open], of reading or of [json.loads] leaves the
    handler. *)
Theorem log_outcome (e : Env) :
  exists t entries,
    do_GET "/api/log" e = (t, api_outcome e (entries_body entries)) /\
    List.length entries <= 50 /\
    Forall (fun c => call_path c = LOG_FILE) t.
Proof.
  assert (Hnone : Ok (Api (json_response (PDict [(PStr "entries", PList [])])))
                  = api_outcome e (entries_body [])).
  { unfold api_outcome. rewrite respond_shallow; [reflexivity|simpl; lia]. }
  rewrite do_GET_log, send_log_run.
  destruct (fs_exists e LOG_FILE).
  - destruct (fs_read e LOG_FILE) as [text|].
    + exists [CallExists LOG_FILE; CallOpen LOG_FILE].
      exists (map (entry_of e) (kept_lines text)).
      split; [|split; [|repeat constructor]].
      * unfold api_outcome. destruct (respond e _); reflexivity.
      * rewrite length_map. apply kept_lines_length.
    + exists [CallExists LOG_FILE; CallOpen LOG_FILE], [].
      split; [rewrite Hnone; reflexivity|].
      split; [simpl; lia|repeat constructor].
  - exists [CallExists LOG_FILE], [].
    split; [rewrite Hnone; reflexivity|].
    split; [simpl; lia|repeat constructor].
Qed.

(** X13.  The outcome of GET /api/log depends on the file system only
    through the activity log: with the same [json.loads], the same
    recursion guard and the same file at that path, the request makes
    the same calls and gives the same response or exception. *)
Theorem log_frame (e e' : Env) :
  (forall s, json_loads e s = json_loads e' s) ->
  recursion_limit e = recursion_limit e' ->
  same_file e e' LOG_FILE ->
  do_GET "/api/log" e' = do_GET "/api/log" e.
Proof.
  intros Hloads Hlim [Hex Hrd]. rewrite !do_GET_log, !send_log_run.
  rewrite <- Hex, <- Hrd. destruct (fs_exists e LOG_FILE); [|reflexivity].
  destruct (fs_read e LOG_FILE) as [text|]; [|reflexivity].
  unfold respond. rewrite (entry_of_same e e' _ Hloads), <- Hlim.
  reflexivity.
Qed.

Lemma log_frame_witness :
  do_GET "/api/log" env_done = do_GET "/api/log" env_plain.
Proof.
  apply (log_frame env_plain env_done).
  - reflexivity.
  - reflexivity.
  - split; reflexivity.
Defined.

(** X14.  The lines that yield no entry are the lines made of
    whitespace only: the number of entries of a response is the number
    of lines of the window that hold a character other than
    whitespace. *)
Theorem log_blank_lines (e : Env) (text : string) (t : list fs_call)
        (r : response) :
  fs_exists e LOG_FILE = true ->
  fs_read e LOG_FILE = Some text ->
  do_GET "/api/log" e = (t, Ok (Api r)) ->
  exists entries,
    emitted_entries r = Some entries /\
    List.length entries
    = List.length (filter (fun l => negb (all_space l))
                     (last_n 50 (readlines text))).
Proof.
  intros Hex Hrd Hget. rewrite (log_response e text t r Hex Hrd Hget).
  eexists. split; [reflexivity|].
  rewrite length_map. unfold kept_lines.
  generalize (last_n 50 (readlines text)) as w.
  induction w as [|l w IH]; simpl; [reflexivity|].
  destruct (str_truthy (strip l)) eqn:Hs.
  - destruct (all_space l) eqn:Ha.
    + apply strip_blank_iff in Ha. congruence.
    + simpl. rewrite IH. reflexivity.
  - rewrite (proj1 (strip_blank_iff l) Hs). simpl. exact IH.
Qed.

Lemma log_blank_lines_witness :
  exists entries,
    emitted_entries
      (json_response
         (entries_body
            [PDict [(PStr "time", PStr "t1"); (PStr "msg", PStr "x")];
             PDict [(PStr "message", PStr "not json");
                    (PStr "time", PStr EmptyString)];
             PInt 42]))
    = Some entries /\
    List.length entries
    = List.length (filter (fun l => negb (all_space l))
                     (last_n 50 (readlines log_text))).
Proof.
  apply (log_blank_lines env_log log_text
           [CallExists LOG_FILE; CallOpen LOG_FILE]); reflexivity.
Defined.

(** X15.  Every entry of a response comes from a line as [strip]
    leaves it: the text handed to [json.loads], and stored as [message]
    when that fails, is not empty, neither begins nor ends with
    whitespace, and is its own trimmed form. *)
Theorem log_lines_trimmed (e : Env) (text : string) (t : list fs_call)
        (r : response) :
  fs_exists e LOG_FILE = true ->
  fs_read e LOG_FILE = Some text ->
  do_GET "/api/log" e = (t, Ok (Api r)) ->
  exists lines,
    emitted_entries r = Some (map (entry_of e) lines) /\
    Forall (fun l =>
              l <> EmptyString /\ strip l = l /\
              (exists c, first_char l = Some c /\ is_space c = false) /\
              (exists c, last_char l = Some c /\ is_space c = false))
           lines.
Proof.
  intros Hex Hrd Hget. rewrite (log_response e text t r Hex Hrd Hget).
  exists (kept_lines text). split; [reflexivity|].
  unfold kept_lines. apply Forall_forall. intros l Hl.
  apply filter_In in Hl as [Hl Ht]. apply in_map_iff in Hl as (raw & <- & _).
  destruct (strip_shape raw) as [H|(H1 & H2 & H3)].
  - rewrite H in Ht. discriminate.
  - split; [|split; [|split]]; try assumption.
    intro H. rewrite H in Ht. discriminate.
Qed.

Lemma log_lines_trimmed_witness :
  exists lines,
    emitted_entries
      (json_response
         (entries_body
            [PDict [(PStr "time", PStr "t1"); (PStr "msg", PStr "x")];
             PDict [(PStr "message", PStr "not json");
                    (PStr "time", PStr EmptyString)];
             PInt 42]))
    = Some (map (entry_of env_log) lines) /\
    Forall (fun l =>
              l <> EmptyString /\ strip l = l /\
              (exists c, first_char l = Some c /\ is_space c = false) /\
              (exists c, last_char l = Some c /\ is_space c = false))
           lines.
Proof.
  apply (log_lines_trimmed env_log log_text
           [CallExists LOG_FILE; CallOpen LOG_FILE]); reflexivity.
Defined.

(** X16.  Lines older than the window have no effect.  When the log
    ends with at least 50 lines [recent], whatever full lines [older]
    come before them, the outcome is the one for [recent] alone. *)
Theorem log_older_lines_irrelevant (e e' : Env) (older recent : string) :
  (forall s, json_loads e s = json_loads e' s) ->
  recursion_limit e = recursion_limit e' ->
  fs_exists e LOG_FILE = true ->
  fs_exists e' LOG_FILE = true ->
  fs_read e LOG_FILE = Some (older ++ recent) ->
  fs_read e' LOG_FILE = Some recent ->
  ends_with_newline older = true ->
  50 <= List.length (readlines recent) ->
  do_GET "/api/log" e = do_GET "/api/log" e'.
Proof.
  intros Hloads Hlim Hex Hex' Hrd Hrd' Hnl Hlen.
  rewrite (log_run e _ Hex Hrd), (log_run e' _ Hex' Hrd').
  unfold respond. rewrite (entry_of_same e e' _ Hloads), Hlim.
  unfold kept_lines.
  rewrite (readlines_app older recent Hnl), (last_n_app 50 _ _ Hlen).
  reflexivity.
Qed.

Lemma log_older_lines_irrelevant_witness :
  do_GET "/api/log" env_long = do_GET "/api/log" env_recent.
Proof.
  apply (log_older_lines_irrelevant env_long env_recent
           ("old line" ++ nl) recent_log); reflexivity.
Defined.

(** ** The router *)

(** X17.  [do_GET] matches the two API paths exactly: any other path,
    a trailing slash or a query string included, goes to the static
    file handler without the API code touching a file, and only [/] is
    rewritten, to [/index.html]. *)
Theorem router_exact_match (e : Env) (path : string) :
  path <> "/api/status" ->
  path <> "/api/log" ->
  do_GET path e
  = ([], Ok (Static (if (path =? "/")%string then "/index.html" else path))).
Proof.
  intros H1 H2. unfold do_GET.
  rewrite (proj2 (String.eqb_neq _ _) H1), (proj2 (String.eqb_neq _ _) H2).
  destruct (path =? "/")%string; reflexivity.
Qed.

Lemma router_exact_match_witness :
  do_GET "/api/status?x=1" env_plain
  = ([], Ok (Static (if ("/api/status?x=1" =? "/")%string
                     then "/index.html" else "/api/status?x=1"))).
Proof.
  apply (router_exact_match env_plain "/api/status?x=1"); discriminate.
Defined.

(** ** The document comes back *)

Lemma for_each_unchanged (e : Env) (ts : list pyval) :
  forallb is_task ts = true ->
  (forall task id,
      In task ts -> py_getitem task "id" = Ok id ->
      nothing_to_merge (overlay_of e (status_file e id)) = true) ->
  for_each merge_status ts e = (flat_map (status_calls e) ts, Ok ts).
Proof.
  induction ts as [|x xs IH]; simpl; intros Hall Hnone; [reflexivity|].
  apply andb_true_iff in Hall as [Hx Hxs].
  destruct (merge_status_total e x Hx) as (tx & y & Hrun).
  pose proof (merge_status_calls e x) as Hc. rewrite Hrun in Hc. simpl in Hc.
  subst tx. unfold is_task in Hx.
  destruct (py_getitem x "id") as [id|] eqn:Hid; [|discriminate].
  assert (Hy : y = x).
  { rewrite (merge_status_value e x id y _ Hid Hrun).
    destruct x as [| | | | | |dx]; try discriminate Hid.
    apply update_nothing. apply (Hnone _ id (or_introl eq_refl) Hid). }
  subst y. unfold bind, ret. rewrite Hrun, IH.
  - rewrite app_nil_r. reflexivity.
  - assumption.
  - intros task id' Hin. apply Hnone. right. assumption.
Qed.

(** X18.  When no task of a valid task-list document has anything to
    merge (no status file, or one that cannot be read, is not JSON, or
    holds neither an object nor an array with an element), the body of
    the response is the document itself with [server_time] set and
    nothing else changed. *)
Theorem status_document_comes_back (e : Env) (s : string) (d : dict)
        (ts : list pyval) :
  fs_read e tasks_file = Some s ->
  json_loads e s = Some (PDict d) ->
  dict_get d (PStr "tasks") = Some (PList ts) ->
  forallb is_task ts = true ->
  (forall task id,
      In task ts -> py_getitem task "id" = Ok id ->
      nothing_to_merge (overlay_of e (status_file e id)) = true) ->
  do_GET "/api/status" e
  = (CallOpen tasks_file :: flat_map (status_calls e) ts,
     Ok (Api (json_response
                (PDict (dict_set d (PStr "server_time") (PStr (now_iso e))))))).
Proof.
  intros Hs Hd Ht Hall Hnone.
  rewrite do_GET_status, send_status_run, Hs, Hd. unfold py_getitem.
  rewrite Ht. unfold for_tasks, bind, ret.
  rewrite (for_each_unchanged e ts Hall Hnone), app_nil_r.
  rewrite (dict_set_same d _ _ Ht), (respond_with_time e s d _ Hd).
  reflexivity.
Qed.

Lemma status_document_comes_back_witness :
  do_GET "/api/status" env_locked
  = (CallOpen tasks_file
       :: flat_map (status_calls env_locked)
            [PDict [(PStr "id", PInt 1); (PStr "title", PStr "A")]],
     Ok (Api (json_response
                (PDict (dict_set
                          [(PStr "tasks",
                            PList [PDict [(PStr "id", PInt 1);
                                          (PStr "title", PStr "A")]])]
                          (PStr "server_time")
                          (PStr (now_iso env_locked))))))).
Proof.
  apply (status_document_comes_back env_locked tasks_doc
           [(PStr "tasks",
             PList [PDict [(PStr "id", PInt 1); (PStr "title", PStr "A")]])]
           [PDict [(PStr "id", PInt 1); (PStr "title", PStr "A")]]);
    try (vm_compute; reflexivity).
  intros task id [<-|[]] Hid. vm_compute in Hid. inversion Hid.
  vm_compute. reflexivity.
Defined.

(** ** Where [json.dumps] gives up *)

(** Both endpoints wrap what they loaded before they serialise it, so
    a value that [json.loads] accepted at the edge of the recursion
    guard makes [json.dumps] raise, outside every [try]. *)
Lemma dumps_fault_reached :
  (json_loads env_deep_log "[[[1]]]"
   = Some (PList [PList [PList [PInt 1]]]) /\
   do_GET "/api/log" env_deep_log
   = ([CallExists LOG_FILE; CallOpen LOG_FILE], Raise RecursionError)) /\
  (overlay_of env_deep_status status_1
   = Parsed (PDict [(PStr "v", PList [PList [PInt 1]])]) /\
   do_GET "/api/status" env_deep_status
   = ([CallOpen tasks_file; CallExists status_1; CallOpen status_1],
      Raise RecursionError)).
Proof. repeat split; vm_compute; reflexivity. Qed.
